(** * Thesys chat template: the request relay and the response normalizer

    A shallow embedding of the two pieces of the template that carry
    behaviour:

    - [Relay.handler], the API route [pages/api/thesys.js], which forwards a
      client request to the configured upstream endpoint and relays the
      answer;
    - [Chat.send], the [send] function of [components/Chat.js], with its
      extraction of the assistant text from the relayed JSON.

    The JavaScript values the code handles are modelled by [JS.value]; the
    operations of the language that the code uses ([ToBoolean], [ToString],
    property reads, [JSON.stringify], [String.prototype.trim],
    [String.prototype.includes]) are written out in module [JS]. *)

From Stdlib Require Import String Ascii List Bool ZArith Lia.
Import ListNotations.
Open Scope string_scope.

(* ===================================================================== *)
(** ** JavaScript values and the operations the code uses *)
(* ===================================================================== *)

Module JS.

(** Exceptions.  Every exception the code can meet is an [Error] object;
    the code only ever reads its [message]. *)
Inductive exn : Type :=
| TypeError (message : string)
| SyntaxError (message : string)
| Error (message : string).

Definition message (e : exn) : string :=
  match e with
  | TypeError m => m
  | SyntaxError m => m
  | Error m => m
  end.

(** An evaluation either completes with a value or throws. *)
Inductive result (A : Type) : Type :=
| Ok (a : A)
| Throw (e : exn).
Arguments Ok {A} a.
Arguments Throw {A} e.

Definition bind {A B : Type} (r : result A) (k : A -> result B) : result B :=
  match r with
  | Ok a => k a
  | Throw e => Throw e
  end.

Notation "x <- r ;; k" := (bind r (fun x => k))
  (at level 61, r at next level, right associativity).

(** A computation that acts on the world as it goes: the events it
    caused, in order, and how it ended.  Nothing is recorded after a
    throw. *)
Definition traced (E A : Type) : Type := (list E * result A)%type.

Definition done {E A : Type} (a : A) : traced E A := ([], Ok a).

Definition lift {E A : Type} (r : result A) : traced E A := ([], r).

Definition emit {E : Type} (e : E) : traced E unit := ([e], Ok tt).

Definition then_ {E A B : Type} (m : traced E A) (k : A -> traced E B)
    : traced E B :=
  match snd m with
  | Ok a => ((fst m ++ fst (k a))%list, snd (k a))
  | Throw e => (fst m, Throw e)
  end.

Notation "x <~ m ;; k" := (then_ m (fun x => k))
  (at level 61, m at next level, right associativity).

(** [try { m } catch (err) { handler }]. *)
Definition catch {E A : Type} (m : traced E A) (handler : exn -> traced E A)
    : traced E A :=
  match snd m with
  | Ok a => m
  | Throw err => ((fst m ++ fst (handler err))%list, snd (handler err))
  end.

(** [try { m } finally { last }], for a [last] that does not throw. *)
Definition finally {E A : Type} (m : traced E A) (last : traced E unit)
    : traced E A :=
  ((fst m ++ fst last)%list, snd m).

(** Strings are sequences of code units; a character of [string] stands
    for a code unit in the range 0..255.

    A Number is identified by the decimal text [Number::toString] gives it
    (so [Num "1.5"], [Num "-3"], [Num "NaN"]).  [+0] and [-0] share the text
    [0]; no operation used by the code tells them apart. *)
#[warnings="-register-all"]
Inductive value : Type :=
| Undefined
| Null
| Bool (b : bool)
| Num (text : string)
| Str (s : string)
| Arr (items : list value)
| Obj (props : list (string * value)).

(** Objects list their own properties in enumeration order; a key is bound
    once, and a read finds the first binding. *)
Fixpoint own (props : list (string * value)) (k : string) : option value :=
  match props with
  | [] => None
  | (k', v) :: rest => if String.eqb k' k then Some v else own rest k
  end.

Definition has_own (props : list (string * value)) (k : string) : bool :=
  match own props k with
  | Some _ => true
  | None => false
  end.

(** [ToBoolean]. *)
Definition to_boolean (v : value) : bool :=
  match v with
  | Undefined => false
  | Null => false
  | Bool b => b
  | Num t => negb (String.eqb t "0" || String.eqb t "NaN")
  | Str s => negb (String.eqb s "")
  | Arr _ => true
  | Obj _ => true
  end.

Definition nullish (v : value) : bool :=
  match v with
  | Undefined => true
  | Null => true
  | _ => false
  end.

(** [Array.isArray]. *)
Definition isArray (v : value) : bool :=
  match v with
  | Arr _ => true
  | _ => false
  end.

(** The property names the code reads.  None of them is defined on
    [Object.prototype], [Array.prototype], [String.prototype],
    [Number.prototype] or [Boolean.prototype], so a read that finds no own
    property yields [undefined]. *)
Inductive prop_name : Type :=
| P_output
| P_choices
| P_text
| P_message
| P_content.

Definition key (p : prop_name) : string :=
  match p with
  | P_output => "output"
  | P_choices => "choices"
  | P_text => "text"
  | P_message => "message"
  | P_content => "content"
  end.

Definition read_error (base : string) (p : string) : exn :=
  TypeError ("Cannot read properties of " ++ base ++ " (reading '" ++ p ++ "')").

(** [v.p]: throws on [undefined] and [null]. *)
Definition get (v : value) (p : prop_name) : result value :=
  match v with
  | Undefined => Throw (read_error "undefined" (key p))
  | Null => Throw (read_error "null" (key p))
  | Obj props =>
      match own props (key p) with
      | Some x => Ok x
      | None => Ok Undefined
      end
  | _ => Ok Undefined
  end.

(** [v[0]]. *)
Definition elem0 (v : value) : result value :=
  match v with
  | Undefined => Throw (read_error "undefined" "0")
  | Null => Throw (read_error "null" "0")
  | Arr (x :: _) => Ok x
  | Arr [] => Ok Undefined
  | Str (String c _) => Ok (Str (String c EmptyString))
  | Str EmptyString => Ok Undefined
  | Obj props =>
      match own props "0" with
      | Some x => Ok x
      | None => Ok Undefined
      end
  | _ => Ok Undefined
  end.

(** [a || b] and [a && b]: the right operand counts only when the left one
    does not decide. *)
Definition js_or (a b : result value) : result value :=
  x <- a ;; if to_boolean x then Ok x else b.

Definition js_and (a b : result value) : result value :=
  x <- a ;; if to_boolean x then b else Ok x.

(** [a?.p]. *)
Definition get_opt (a : result value) (p : prop_name) : result value :=
  x <- a ;; if nullish x then Ok Undefined else get x p.

(** *** [ToString] *)

Fixpoint sequence {A : Type} (l : list (result A)) : result (list A) :=
  match l with
  | [] => Ok []
  | r :: rest => x <- r ;; xs <- sequence rest ;; Ok (x :: xs)
  end.

Definition to_primitive_error : exn :=
  TypeError "Cannot convert object to primitive value".

(** [String(v)].  An array goes through [Array.prototype.join], which
    writes [undefined] and [null] elements as the empty string.  A plain
    object answers [[object Object]] through [Object.prototype.toString],
    unless an own property named [toString] hides that method: its value
    is data, not a function, [valueOf] gives back the object, and the
    conversion throws. *)
Fixpoint to_string (v : value) : result string :=
  match v with
  | Undefined => Ok "undefined"
  | Null => Ok "null"
  | Bool true => Ok "true"
  | Bool false => Ok "false"
  | Num t => Ok t
  | Str s => Ok s
  | Arr items =>
      parts <- sequence
                 (map (fun x => if nullish x then Ok EmptyString else to_string x)
                      items) ;;
      Ok (String.concat "," parts)
  | Obj props =>
      if has_own props "toString" then Throw to_primitive_error
      else Ok "[object Object]"
  end.

(** The values [String] converts without a throw. *)
Fixpoint printable (v : value) : bool :=
  match v with
  | Arr items => forallb printable items
  | Obj props => negb (has_own props "toString")
  | _ => true
  end.

(** *** [JSON.stringify] *)

Definition dquote : ascii := "034"%char.
Definition backslash : ascii := "092"%char.

Definition hex_digit (n : nat) : ascii :=
  match n with
  | 0 => "0" | 1 => "1" | 2 => "2" | 3 => "3" | 4 => "4"
  | 5 => "5" | 6 => "6" | 7 => "7" | 8 => "8" | 9 => "9"
  | 10 => "a" | 11 => "b" | 12 => "c" | 13 => "d" | 14 => "e"
  | _ => "f"
  end%char.

Definition escape (c : ascii) : string := String backslash (String c EmptyString).

(** One code unit of [QuoteJSONString]. *)
Definition quote_unit (c : ascii) : string :=
  let n := nat_of_ascii c in
  if Nat.eqb n 8 then escape "b"
  else if Nat.eqb n 9 then escape "t"
  else if Nat.eqb n 10 then escape "n"
  else if Nat.eqb n 12 then escape "f"
  else if Nat.eqb n 13 then escape "r"
  else if Nat.eqb n 34 then escape dquote
  else if Nat.eqb n 92 then escape backslash
  else if Nat.ltb n 32 then
    String backslash
      ("u00" ++ String (hex_digit (n / 16)) (String (hex_digit (n mod 16)) EmptyString))
  else String c EmptyString.

Fixpoint quote_units (s : string) : string :=
  match s with
  | EmptyString => EmptyString
  | String c rest => quote_unit c ++ quote_units rest
  end.

Definition quote (s : string) : string :=
  String dquote (quote_units s ++ String dquote EmptyString).

Definition finite (t : string) : bool :=
  negb (String.eqb t "NaN" || String.eqb t "Infinity" || String.eqb t "-Infinity").

(** [JSON.stringify(v)] with no replacer and no indentation; [None] is
    the [undefined] it returns for [undefined].  Inside an array
    [undefined] is written [null]; inside an object a property whose value
    is [undefined] is left out.  An own [toJSON] property of a value built
    from data is not callable and is ignored. *)
Fixpoint stringify (v : value) : option string :=
  match v with
  | Undefined => None
  | Null => Some "null"
  | Bool true => Some "true"
  | Bool false => Some "false"
  | Num t => Some (if finite t then t else "null")
  | Str s => Some (quote s)
  | Arr items =>
      Some ("[" ++ String.concat ","
                     (map (fun x => match stringify x with
                                    | Some s => s
                                    | None => "null"
                                    end) items)
                ++ "]")
  | Obj props =>
      Some ("{" ++ String.concat ","
                     (flat_map (fun kv => match stringify (snd kv) with
                                          | Some s => [quote (fst kv) ++ ":" ++ s]
                                          | None => []
                                          end) props)
                ++ "}")
  end.

(** The value of the expression [JSON.stringify(v)]. *)
Definition stringify_value (v : value) : value :=
  match stringify v with
  | Some s => Str s
  | None => Undefined
  end.

(** The values a JSON text denotes: no [undefined] anywhere, and every
    number finite. *)
Fixpoint is_json (v : value) : bool :=
  match v with
  | Undefined => false
  | Num t => finite t
  | Arr items => forallb is_json items
  | Obj props => forallb (fun kv => is_json (snd kv)) props
  | _ => true
  end.

(** *** String methods *)

(** [s.includes(sub)]. *)
Fixpoint includes (s sub : string) : bool :=
  match s with
  | EmptyString => String.prefix sub EmptyString
  | String _ rest => String.prefix sub s || includes rest sub
  end.

(** White space and line terminators among the code units 0..255. *)
Definition is_whitespace (c : ascii) : bool :=
  let n := nat_of_ascii c in
  (Nat.leb 9 n && Nat.leb n 13) || Nat.eqb n 32 || Nat.eqb n 160.

Fixpoint trimStart (s : string) : string :=
  match s with
  | EmptyString => EmptyString
  | String c rest => if is_whitespace c then trimStart rest else s
  end.

Fixpoint trimEnd (s : string) : string :=
  match s with
  | EmptyString => EmptyString
  | String c rest =>
      match trimEnd rest with
      | EmptyString => if is_whitespace c then EmptyString else String c EmptyString
      | rest' => String c rest'
      end
  end.

(** [s.trim()]. *)
Definition trim (s : string) : string := trimEnd (trimStart s).

Fixpoint all_whitespace (s : string) : bool :=
  match s with
  | EmptyString => true
  | String c rest => is_whitespace c && all_whitespace rest
  end.

(** *** [fetch] *)

(** The options object a call of [fetch] is given. *)
Record fetch_init : Type := {
  init_method : string;
  init_headers : list (string * string);
  init_body : option string
}.

End JS.

(* ===================================================================== *)
(** ** The request relay: [pages/api/thesys.js] *)
(* ===================================================================== *)

Module Relay.
Import JS.

(** What the handler reads of [req]. *)
Record request : Type := {
  method : string;
  body : value
}.

(** [process.env]: a variable is a string or is not set. *)
Record environment : Type := {
  THESYS_API_KEY : option string;
  THESYS_API_URL : option string
}.

(** What the handler reads of the upstream [Response]: its status,
    [headers.get('content-type')] ([None] for [null]), and what awaiting
    [json()] and [text()] gives. *)
Record upstream_response : Type := {
  up_status : Z;
  up_content_type : option string;
  up_json : result value;
  up_text : result string
}.

(** The upstream as [fetch] sees it: the awaited call yields a response or
    throws. *)
Definition transport : Type := string -> fetch_init -> result upstream_response.

(** What the handler writes on [res]: the status given to [res.status],
    the headers given to [res.setHeader], and the value given to
    [res.json] or the text given to [res.send]. *)
Inductive header_value : Type :=
| One (s : string)
| Many (l : list string).

Inductive payload : Type :=
| Json (v : value)
| Text (s : string).

Record response : Type := {
  status : Z;
  headers : list (string * header_value);
  content : payload
}.

(** One run of the handler: the response, the calls of [fetch] it issued,
    and what it wrote with [console.error]. *)
Record outcome : Type := {
  sent : response;
  calls : list (string * fetch_init);
  logged : list (string * exn)
}.

Definition error_response (code : Z) (hs : list (string * header_value))
    (msg : string) : response :=
  {| status := code; headers := hs; content := Json (Obj [("error", Str msg)]) |}.

Definition method_not_allowed : response :=
  error_response 405 [("Allow", Many ["POST"])] "Method not allowed".

Definition not_configured : response :=
  error_response 500 [] "Thesys API key or URL not configured on server".

Definition contact_failed : response :=
  error_response 500 [] "Error contacting Thesys API".

(** The second argument of the call of [fetch]. *)
Definition outbound (key : string) (req : request) : fetch_init :=
  {| init_method := "POST";
     init_headers := [("Content-Type", "application/json");
                      ("Authorization", "Bearer " ++ key)];
     init_body := stringify (body req) |}.

(** [upstreamResp.headers.get('content-type') || '']. *)
Definition contentType (r : upstream_response) : string :=
  match up_content_type r with
  | Some s => s
  | None => EmptyString
  end.

(** [await fetch(url, init)]: the call is recorded as it is made. *)
Definition call (fetch : transport) (url : string) (init : fetch_init)
    : traced (string * fetch_init) upstream_response :=
  ([(url, init)], fetch url init).

(** The body of the [try] block: the calls of [fetch] it makes, and the
    response it builds or what it throws. *)
Definition forward (key url : string) (req : request) (fetch : transport)
    : traced (string * fetch_init) response :=
  upstreamResp <~ call fetch url (outbound key req) ;;
  if includes (contentType upstreamResp) "application/json" then
    data <~ lift (up_json upstreamResp) ;;
    done {| status := up_status upstreamResp; headers := []; content := Json data |}
  else
    text <~ lift (up_text upstreamResp) ;;
    done {| status := up_status upstreamResp;
            headers := [("content-type", One (contentType upstreamResp))];
            content := Text text |}.

Definition quiet (r : response) : outcome :=
  {| sent := r; calls := []; logged := [] |}.

Definition handler (env : environment) (req : request) (fetch : transport)
    : outcome :=
  if negb (String.eqb (method req) "POST") then quiet method_not_allowed
  else
    match THESYS_API_KEY env, THESYS_API_URL env with
    | Some key, Some url =>
        if String.eqb key "" || String.eqb url "" then quiet not_configured
        else
          let tried := forward key url req fetch in
          match snd tried with
          | Ok r =>
              {| sent := r; calls := fst tried; logged := [] |}
          | Throw err =>
              {| sent := contact_failed;
                 calls := fst tried;
                 logged := [("Error proxying to Thesys:", err)] |}
          end
    | _, _ => quiet not_configured
    end.

(** A configuration value is usable when it is set and not empty. *)
Definition configured (x : option string) : bool :=
  match x with
  | Some s => negb (String.eqb s "")
  | None => false
  end.

(** The text of a response as the client receives it, and whether a given
    text occurs in its body or in one of its headers. *)
Definition wire (p : payload) : string :=
  match p with
  | Json v => match stringify v with Some s => s | None => EmptyString end
  | Text s => s
  end.

Definition header_mentions (needle : string) (h : string * header_value) : bool :=
  match snd h with
  | One s => includes s needle
  | Many l => existsb (fun s => includes s needle) l
  end.

Definition mentions (r : response) (needle : string) : bool :=
  includes (wire (content r)) needle || existsb (header_mentions needle) (headers r).

(** An error response is one whose status is 400 or more. *)
Definition is_error (r : response) : bool := (400 <=? status r)%Z.

(** *** Notions used to state the properties of the relay *)

(** What awaiting the body of an upstream response gives, by the branch
    the content type selects. *)
Definition body_read (up : upstream_response) : result payload :=
  if includes (contentType up) "application/json" then
    data <- up_json up ;; Ok (Json data)
  else
    text <- up_text up ;; Ok (Text text).

(** The headers the handler has set when the body has been read. *)
Definition relayed_headers (up : upstream_response)
    : list (string * header_value) :=
  if includes (contentType up) "application/json" then []
  else [("content-type", One (contentType up))].

(** The three ways the [try] block throws: the call itself, or the read of
    the body in either branch. *)
Definition upstream_fails (key url : string) (req : request)
    (fetch : transport) (e : exn) : Prop :=
  fetch url (outbound key req) = Throw e \/
  exists up, fetch url (outbound key req) = Ok up /\ body_read up = Throw e.

End Relay.

(* ===================================================================== *)
(** ** The chat client: [components/Chat.js] *)
(* ===================================================================== *)

Module Chat.
Import JS.

Inductive role : Type :=
| user
| assistant.

Record chat_message : Type := {
  msg_role : role;
  msg_text : string
}.

(** The component's state: the three [useState] cells. *)
Record state : Type := {
  input : string;
  messages : list chat_message;
  loading : bool
}.

(** What [send] reads of the [Response] of the local endpoint. *)
Record relay_response : Type := {
  ok : bool;
  res_text : result string;
  res_json : result value
}.

Definition transport : Type := string -> fetch_init -> result relay_response.

(** The expression bound to [assistantText]:
    [json.output ||
     (Array.isArray(json.choices) && json.choices[0] &&
       (json.choices[0].text || json.choices[0].message?.content)) ||
     JSON.stringify(json)]. *)
Definition assistantText (json : value) : result value :=
  let choices0 := (c <- get json P_choices ;; elem0 c) in
  js_or (get json P_output)
    (js_or
       (js_and (c <- get json P_choices ;; Ok (Bool (isArray c)))
          (js_and choices0
             (js_or (c0 <- choices0 ;; get c0 P_text)
                    (get_opt (c0 <- choices0 ;; get c0 P_message) P_content))))
       (Ok (stringify_value json))).

(** The normalizer: [String(assistantText)]. *)
Definition normalizer (json : value) : result string :=
  v <- assistantText json ;; to_string v.

(** What a run of [send] does, in order: the calls of the state setters,
    the request, and what it writes with [console.error].

    [setMessages] is always called with an updater, a function from the
    list to the list with one message more.  The updater is run by React,
    after the call has returned and outside [send]: [SetMessages m] is the
    call with an updater that gives the list with [m] appended, and
    [SetMessagesThrows e] the call with an updater that throws [e] when it
    is run. *)
Inductive effect : Type :=
| SetMessages (appended : chat_message)
| SetInput (s : string)
| SetLoading (b : bool)
| Fetch (url : string) (init : fetch_init)
| ConsoleError (label : string) (e : exn)
| SetMessagesThrows (e : exn).

Definition request_init (trimmed : string) : fetch_init :=
  {| init_method := "POST";
     init_headers := [("Content-Type", "application/json")];
     init_body := stringify (Obj [("prompt", Str trimmed)]) |}.

(** [await fetch(url, init)]: the request is recorded as it is made. *)
Definition request (fetch : transport) (url : string) (init : fetch_init)
    : traced effect relay_response :=
  ([Fetch url init], fetch url init).

(** [setMessages((m) => [...m, { role, text }])], where evaluating [text]
    is part of the updater. *)
Definition appending (r : role) (text : result string) : effect :=
  match text with
  | Ok t => SetMessages {| msg_role := r; msg_text := t |}
  | Throw e => SetMessagesThrows e
  end.

(** The body of the [try] block.  [String(assistantText)] stands inside
    the updater given to [setMessages]: the block itself evaluates the
    extraction only. *)
Definition try_block (trimmed : string) (fetch : transport) : traced effect unit :=
  res <~ request fetch "/api/thesys" (request_init trimmed) ;;
  if negb (ok res) then
    errText <~ lift (res_text res) ;;
    lift (Throw (Error (if String.eqb errText "" then "Upstream error" else errText)))
  else
    json <~ lift (res_json res) ;;
    chosen <~ lift (assistantText json) ;;
    emit (appending assistant (to_string chosen)).

(** The body of the [catch] clause; [String(err.message)] is the message
    itself. *)
Definition catch_block (err : exn) : traced effect unit :=
  _ <~ emit (ConsoleError "Error calling /api/thesys" err) ;;
  emit (appending assistant (Ok ("Error: " ++ message err))).

Definition send (input : string) (fetch : transport) : list effect :=
  let trimmed := trim input in
  if String.eqb trimmed "" then []
  else
    fst (_ <~ emit (appending user (Ok trimmed)) ;;
         _ <~ emit (SetInput EmptyString) ;;
         _ <~ emit (SetLoading true) ;;
         finally (catch (try_block trimmed fetch) catch_block)
                 (emit (SetLoading false))).

(** The effect of one setter call on the component's state, when React
    applies it. *)
Definition step (st : state) (e : effect) : state :=
  match e with
  | SetMessages m =>
      {| input := input st; messages := messages st ++ [m]; loading := loading st |}
  | SetInput s =>
      {| input := s; messages := messages st; loading := loading st |}
  | SetLoading b =>
      {| input := input st; messages := messages st; loading := b |}
  | Fetch _ _ => st
  | ConsoleError _ _ => st
  | SetMessagesThrows _ => st
  end.

(** The state cells as the calls are applied.  An updater that throws
    makes the render fail in which React runs it: neither that update nor
    a later one is applied. *)
Fixpoint run (st : state) (es : list effect) : state :=
  match es with
  | [] => st
  | SetMessagesThrows _ :: _ => st
  | e :: rest => run (step st e) rest
  end.

(** The component after [send] ran to its end. *)
Definition after_send (st : state) (fetch : transport) : state :=
  run st (send (input st) fetch).

(** *** The extraction order in the words of the specification *)

(** A field of a value, [undefined] where there is none. *)
Definition field (v : value) (p : prop_name) : value :=
  match v with
  | Obj props =>
      match own props (key p) with
      | Some x => x
      | None => Undefined
      end
  | _ => Undefined
  end.

(** The first element of the choices array. *)
Definition first_choice (json : value) : value :=
  match field json P_choices with
  | Arr (c :: _) => c
  | _ => Undefined
  end.

(** The three locations, in order. *)
Definition candidates (json : value) : list value :=
  [field json P_output;
   field (first_choice json) P_text;
   field (field (first_choice json) P_message) P_content].

Fixpoint first_resolved (cands : list value) (fallback : value) : value :=
  match cands with
  | [] => fallback
  | c :: rest => if to_boolean c then c else first_resolved rest fallback
  end.

(** The first candidate that resolves, else the serialization of the whole
    payload. *)
Definition extraction_order (json : value) : value :=
  first_resolved (candidates json) (stringify_value json).

End Chat.

(* ===================================================================== *)
(** ** The manifest script: route paths *)
(* ===================================================================== *)

(** The pure parts of [extractRoutes], in the script that generates
    [manifest.json]: its local function [toRoutePath] and the body of its
    loop over the files. *)
Module Scripts.
Import JS.

(** [s.startsWith(p)] and [s.endsWith(p)]. *)
Definition startsWith (s p : string) : bool := String.prefix p s.

Fixpoint endsWith (s p : string) : bool :=
  String.eqb s p ||
  match s with
  | EmptyString => false
  | String _ rest => endsWith rest p
  end.

(** [arr.filter(Boolean)] on an array of strings: the empty string is the
    one falsy string. *)
Definition filterBoolean (parts : list string) : list string :=
  filter (fun p => negb (String.eqb p "")) parts.

(** [p.startsWith("(") && p.endsWith(")")]: a route group. *)
Definition is_group (p : string) : bool :=
  startsWith p "(" && endsWith p ")".

Definition is_slash (c : ascii) : bool := Ascii.eqb c "/".

(** [s.replace(/\/+/g, "/")]: every run of slashes becomes one slash.  A
    slash is dropped when another one follows it. *)
Fixpoint collapse_slashes (s : string) : string :=
  match s with
  | EmptyString => EmptyString
  | String c rest =>
      if is_slash c then
        match rest with
        | String c' _ =>
            if is_slash c' then collapse_slashes rest
            else String c (collapse_slashes rest)
        | EmptyString => String c EmptyString
        end
      else String c (collapse_slashes rest)
  end.

(** [toRoutePath(relParts)]. *)
Definition toRoutePath (relParts : list string) : string :=
  let filtered :=
    filterBoolean
      (map (fun p => if is_group p then EmptyString else p)
           (filterBoolean relParts)) in
  "/" ++ collapse_slashes (String.concat "/" filtered).

(** An entry of the [routes] array, before the methods are read from the
    file. *)
Record route : Type := {
  route_type : string;
  route_path : string;
  route_file : string
}.

(** [rel[rel.length - 1]], [None] for [undefined]. *)
Fixpoint last_part (rel : list string) : option string :=
  match rel with
  | [] => None
  | [p] => Some p
  | _ :: rest => last_part rest
  end.

Definition is_one_of (x : option string) (names : list string) : bool :=
  match x with
  | Some s => existsb (String.eqb s) names
  | None => false
  end.

(** The body of the loop of [extractRoutes] for one file [f], where [rel]
    is [path.relative(appDir, f).split(path.sep)]: the entries pushed on
    [routes]. *)
Definition route_entries (rel : list string) (f : string) : list route :=
  let filename := last_part rel in
  let segments := removelast rel in
  let pathStr := toRoutePath segments in
  (if is_one_of filename ["page.tsx"; "page.jsx"] then
     [{| route_type := "page";
         route_path := if String.eqb pathStr "/" then "/" else pathStr;
         route_file := f |}]
   else [])
  ++ (if is_one_of filename ["route.ts"; "route.js"] then
        [{| route_type := if is_one_of (hd_error segments) ["api"] then "api"
                          else "route";
            route_path := pathStr;
            route_file := f |}]
      else [])
  ++ (if is_one_of filename ["layout.tsx"; "layout.jsx"] then
        [{| route_type := "layout";
            route_path := if String.eqb pathStr "" then "/" else pathStr;
            route_file := f |}]
      else []).

(** *** Notions used to state the properties of the scripts *)

Fixpoint no_slash (s : string) : bool :=
  match s with
  | EmptyString => true
  | String c rest => negb (is_slash c) && no_slash rest
  end.

(** No two slashes stand side by side. *)
Fixpoint no_double_slash (s : string) : bool :=
  match s with
  | EmptyString => true
  | String c rest =>
      match rest with
      | String c' _ => negb (is_slash c && is_slash c')
      | EmptyString => true
      end && no_double_slash rest
  end.

(** A segment that [toRoutePath] keeps as it is: not empty, no route
    group, no slash inside. *)
Definition plain (p : string) : bool :=
  negb (String.eqb p "") && negb (is_group p) && no_slash p.

End Scripts.

(* ===================================================================== *)
(** ** Notions used to state further properties of the chat client *)
(* ===================================================================== *)

Module Observed.
Import JS.

(** The requests a run issued. *)
Fixpoint requests (es : list Chat.effect) : list (string * fetch_init) :=
  match es with
  | [] => []
  | Chat.Fetch url init :: rest => (url, init) :: requests rest
  | _ :: rest => requests rest
  end.

(** What a run wrote with [console.error]. *)
Fixpoint errors (es : list Chat.effect) : list exn :=
  match es with
  | [] => []
  | Chat.ConsoleError _ e :: rest => e :: errors rest
  | _ :: rest => errors rest
  end.

(** The first and the last code unit of a string are no white space. *)
Definition tidy_start (s : string) : bool :=
  match s with
  | EmptyString => true
  | String c _ => negb (is_whitespace c)
  end.

Fixpoint tidy_end (s : string) : bool :=
  match s with
  | EmptyString => true
  | String c EmptyString => negb (is_whitespace c)
  | String _ rest => tidy_end rest
  end.

(** A payload that is an array, a string, a number or a boolean. *)
Definition not_an_object (json : value) : bool :=
  match json with
  | Bool _ => true
  | Num _ => true
  | Str _ => true
  | Arr _ => true
  | _ => false
  end.

(** The ways an operation of the [try] block of [send] throws: the call
    of [fetch], the read of the body of an answer (as text when it is not
    [ok], as JSON when it is), and the reads of the extraction
    ([json.output] on [null]).  [String(assistantText)] is no operation of
    the block: it stands in the updater. *)
Definition try_block_fails (trimmed : string) (fetch : Chat.transport) (e : exn)
    : Prop :=
  fetch "/api/thesys" (Chat.request_init trimmed) = Throw e \/
  exists res,
    fetch "/api/thesys" (Chat.request_init trimmed) = Ok res /\
    ((Chat.ok res = false /\ Chat.res_text res = Throw e) \/
     (Chat.ok res = true /\ Chat.res_json res = Throw e) \/
     (Chat.ok res = true /\
      exists json, Chat.res_json res = Ok json /\ Chat.assistantText json = Throw e)).

End Observed.

(* ===================================================================== *)
(** ** Concrete runs *)
(* ===================================================================== *)

(** Requests, configurations and upstreams on which the properties below
    are exercised. *)
Module Scenario.
Import JS.

Definition endpoint : string := "https://api.thesys.ai/v1/generate".

Definition env_with (key : string) : Relay.environment :=
  {| Relay.THESYS_API_KEY := Some key; Relay.THESYS_API_URL := Some endpoint |}.

Definition prompt (p : string) : value := Obj [("prompt", Str p)].

Definition post (b : value) : Relay.request :=
  {| Relay.method := "POST"; Relay.body := b |}.

Definition get_request : Relay.request :=
  {| Relay.method := "GET"; Relay.body := Undefined |}.

(** An upstream that cannot be reached: the call of [fetch] throws. *)
Definition unreachable : Relay.transport :=
  fun _ _ => Throw (TypeError "fetch failed").

(** An upstream that answers every call with the same response. *)
Definition answering (up : Relay.upstream_response) : Relay.transport :=
  fun _ _ => Ok up.

(** A response that carries a JSON document. *)
Definition json_answer (code : Z) (doc : value) : Relay.upstream_response :=
  {| Relay.up_status := code;
     Relay.up_content_type := Some "application/json";
     Relay.up_json := Ok doc;
     Relay.up_text :=
       Ok (match stringify doc with Some s => s | None => EmptyString end) |}.

(** A response that carries text which is no JSON document. *)
Definition text_answer (code : Z) (ctype text : string) : Relay.upstream_response :=
  {| Relay.up_status := code;
     Relay.up_content_type := Some ctype;
     Relay.up_json := Throw (SyntaxError "Unexpected token in JSON");
     Relay.up_text := Ok text |}.

(** A response that announces JSON and carries a body that does not parse. *)
Definition malformed_answer (code : Z) : Relay.upstream_response :=
  {| Relay.up_status := code;
     Relay.up_content_type := Some "application/json; charset=utf-8";
     Relay.up_json := Throw (SyntaxError "Unexpected end of JSON input");
     Relay.up_text := Ok "{" |}.

Fixpoint header (hs : list (string * string)) (name : string) : string :=
  match hs with
  | [] => EmptyString
  | (n, v) :: rest => if String.eqb n name then v else header rest name
  end.

(** An upstream that refuses every call and quotes the [Authorization]
    header it was sent in its answer. *)
Definition quoting_authorization : Relay.transport :=
  fun _ init =>
    Ok (text_answer 401 "text/plain"
          ("invalid credentials: " ++ header (init_headers init) "Authorization")).

(** The local endpoint as the chat client sees it. *)
Definition relay_down : Chat.transport :=
  fun _ _ => Throw (TypeError "Failed to fetch").

Definition relay_answering (doc : value) : Chat.transport :=
  fun _ _ =>
    Ok {| Chat.ok := true;
          Chat.res_text :=
            Ok (match stringify doc with Some s => s | None => EmptyString end);
          Chat.res_json := Ok doc |}.

Definition idle (typed : string) : Chat.state :=
  {| Chat.input := typed; Chat.messages := []; Chat.loading := false |}.

End Scenario.

(* ===================================================================== *)
(** ** Statements that are put to the test *)
(* ===================================================================== *)

Import JS.

(** Two runs of the handler that differ in the credential alone, on the
    same request and against the same upstream: their error responses
    agree in headers and body, and none mentions the credential of its
    run. *)
Definition credential_never_surfaces : Prop :=
  forall (url : option string) (k1 k2 : string) (req : Relay.request)
         (fetch : Relay.transport),
    let run k :=
      Relay.sent
        (Relay.handler
           {| Relay.THESYS_API_KEY := Some k; Relay.THESYS_API_URL := url |}
           req fetch) in
    (Relay.is_error (run k1) = true -> Relay.is_error (run k2) = true ->
     Relay.headers (run k1) = Relay.headers (run k2) /\
     Relay.content (run k1) = Relay.content (run k2)) /\
    (Relay.is_error (run k1) = true -> Relay.mentions (run k1) k1 = false).

(** An upstream that answers, without a throw, with a status outside
    200..299 is reported to the client as the fixed 500. *)
Definition upstream_refusal_becomes_500 : Prop :=
  forall (key url : string) (req : Relay.request) (fetch : Relay.transport)
         (up : Relay.upstream_response) (p : Relay.payload),
    Relay.method req = "POST" -> key <> "" -> url <> "" ->
    fetch url (Relay.outbound key req) = Ok up ->
    Relay.body_read up = Ok p ->
    (Relay.up_status up < 200 \/ 299 < Relay.up_status up)%Z ->
    Relay.sent
      (Relay.handler
         {| Relay.THESYS_API_KEY := Some key; Relay.THESYS_API_URL := Some url |}
         req fetch)
    = Relay.contact_failed.

(* ===================================================================== *)
(** ** Properties of the relay *)
(* ===================================================================== *)

Section RelayRuns.

Variable req : Relay.request.
Variable fetch : Relay.transport.

(** A request that is not a POST is answered at once. *)
Lemma handler_other_method (env : Relay.environment) :
  Relay.method req <> "POST" ->
  Relay.handler env req fetch = Relay.quiet Relay.method_not_allowed.
Proof.
  intros Hm. unfold Relay.handler.
  apply String.eqb_neq in Hm. now rewrite Hm.
Qed.

(** A POST with a configuration value missing or empty is answered
    without going further. *)
Lemma handler_unconfigured (env : Relay.environment) :
  Relay.method req = "POST" ->
  Relay.configured (Relay.THESYS_API_KEY env) = false \/
  Relay.configured (Relay.THESYS_API_URL env) = false ->
  Relay.handler env req fetch = Relay.quiet Relay.not_configured.
Proof.
  intros Hm Hc. unfold Relay.handler.
  apply String.eqb_eq in Hm. rewrite Hm. cbn [negb].
  destruct env as [[key|] [url|]]; cbn in *; try reflexivity.
  destruct Hc as [Hc|Hc]; apply negb_false_iff in Hc; rewrite Hc;
    [reflexivity | now rewrite orb_true_r].
Qed.

(** The [try] block makes one call of [fetch], whatever comes of it: the
    call is the first thing it does, and nothing in it calls again. *)
Lemma forward_calls (key url : string) :
  fst (Relay.forward key url req fetch) = [(url, Relay.outbound key req)].
Proof.
  unfold Relay.forward, then_, Relay.call. cbn [fst snd].
  destruct (fetch url (Relay.outbound key req)) as [up|e]; [|reflexivity].
  destruct (includes (Relay.contentType up) "application/json").
  - now destruct (Relay.up_json up).
  - now destruct (Relay.up_text up).
Qed.

(** A POST under a full configuration runs the [try] block, and the
    [catch] clause turns a throw into the fixed answer. *)
Lemma handler_forwards (key url : string) :
  Relay.method req = "POST" -> key <> "" -> url <> "" ->
  Relay.handler
    {| Relay.THESYS_API_KEY := Some key; Relay.THESYS_API_URL := Some url |}
    req fetch
  = match snd (Relay.forward key url req fetch) with
    | Ok r =>
        {| Relay.sent := r;
           Relay.calls := [(url, Relay.outbound key req)];
           Relay.logged := [] |}
    | Throw err =>
        {| Relay.sent := Relay.contact_failed;
           Relay.calls := [(url, Relay.outbound key req)];
           Relay.logged := [("Error proxying to Thesys:", err)] |}
    end.
Proof.
  intros Hm Hk Hu. unfold Relay.handler.
  apply String.eqb_eq in Hm. apply String.eqb_neq in Hk, Hu.
  cbn [Relay.THESYS_API_KEY Relay.THESYS_API_URL].
  rewrite Hm, Hk, Hu. cbn [negb orb]. cbv zeta.
  now rewrite forward_calls.
Qed.

End RelayRuns.

Lemma forward_answered (key url : string) (req : Relay.request)
    (fetch : Relay.transport) (up : Relay.upstream_response) :
  fetch url (Relay.outbound key req) = Ok up ->
  snd (Relay.forward key url req fetch)
  = (p <- Relay.body_read up ;;
     Ok {| Relay.status := Relay.up_status up;
           Relay.headers := Relay.relayed_headers up;
           Relay.content := p |}).
Proof.
  intros Hf. unfold Relay.forward, Relay.body_read, Relay.relayed_headers.
  unfold then_, Relay.call. cbn [fst snd]. rewrite Hf. cbn [bind].
  destruct (includes (Relay.contentType up) "application/json").
  - now destruct (Relay.up_json up).
  - now destruct (Relay.up_text up).
Qed.

Lemma forward_thrown (key url : string) (req : Relay.request)
    (fetch : Relay.transport) (e : exn) :
  Relay.upstream_fails key url req fetch e <->
  snd (Relay.forward key url req fetch) = Throw e.
Proof.
  unfold Relay.upstream_fails. split.
  - intros [Hf | [up [Hf Hb]]].
    + unfold Relay.forward, then_, Relay.call. cbn [fst snd]. now rewrite Hf.
    + rewrite (forward_answered _ _ _ _ _ Hf), Hb. reflexivity.
  - intros H. destruct (fetch url (Relay.outbound key req)) as [up|e'] eqn:Hf.
    + right. exists up. split; [reflexivity|].
      rewrite (forward_answered _ _ _ _ _ Hf) in H.
      destruct (Relay.body_read up); cbn in H; [discriminate | now inversion H].
    + left. unfold Relay.forward, then_, Relay.call in H. cbn [fst snd] in H.
      rewrite Hf in H. now inversion H.
Qed.

(** *** Terminal answers *)

(** C5.  Every request whose method is not POST is answered with status
    405, an [Allow] header that advertises POST and the fixed error body,
    and the handler issues no call of [fetch]. *)
Theorem other_methods_get_405 :
  forall (env : Relay.environment) (req : Relay.request) (fetch : Relay.transport),
    Relay.method req <> "POST" ->
    let o := Relay.handler env req fetch in
    Relay.status (Relay.sent o) = 405%Z /\
    Relay.headers (Relay.sent o) = [("Allow", Relay.Many ["POST"])] /\
    Relay.content (Relay.sent o)
      = Relay.Json (Obj [("error", Str "Method not allowed")]) /\
    Relay.calls o = [].
Proof.
  intros env req fetch Hm o. subst o.
  rewrite (handler_other_method req fetch env Hm).
  repeat split.
Qed.

Lemma other_methods_get_405_witness :
  let o := Relay.handler (Scenario.env_with "sk-test") Scenario.get_request
             (Scenario.answering (Scenario.json_answer 200 (Obj []))) in
  Relay.status (Relay.sent o) = 405%Z /\
  Relay.headers (Relay.sent o) = [("Allow", Relay.Many ["POST"])] /\
  Relay.content (Relay.sent o)
    = Relay.Json (Obj [("error", Str "Method not allowed")]) /\
  Relay.calls o = [].
Proof.
  apply (other_methods_get_405 (Scenario.env_with "sk-test") Scenario.get_request).
  discriminate.
Defined.

(** C6.  Every POST that finds the upstream URL or the credential missing
    or empty is answered with status 500 and the diagnostic message; the
    handler issues no call of [fetch]. *)
Theorem missing_configuration_gets_500 :
  forall (env : Relay.environment) (req : Relay.request) (fetch : Relay.transport),
    Relay.method req = "POST" ->
    Relay.configured (Relay.THESYS_API_KEY env) = false \/
    Relay.configured (Relay.THESYS_API_URL env) = false ->
    let o := Relay.handler env req fetch in
    Relay.status (Relay.sent o) = 500%Z /\
    Relay.content (Relay.sent o)
      = Relay.Json
          (Obj [("error", Str "Thesys API key or URL not configured on server")]) /\
    Relay.calls o = [].
Proof.
  intros env req fetch Hm Hc o. subst o.
  rewrite (handler_unconfigured req fetch env Hm Hc).
  cbn. auto.
Qed.

Lemma missing_configuration_gets_500_witness :
  let runs :=
    map (fun env => Relay.handler env (Scenario.post (Scenario.prompt "hi"))
                      (Scenario.answering (Scenario.json_answer 200 (Obj []))))
      [ {| Relay.THESYS_API_KEY := None;
           Relay.THESYS_API_URL := Some Scenario.endpoint |};
        {| Relay.THESYS_API_KEY := Some "sk-test";
           Relay.THESYS_API_URL := Some EmptyString |} ] in
  Forall (fun o => Relay.status (Relay.sent o) = 500%Z /\ Relay.calls o = []) runs.
Proof.
  cbv zeta. cbn [map].
  constructor; [| constructor; [| constructor]].
  - destruct (missing_configuration_gets_500
                {| Relay.THESYS_API_KEY := None;
                   Relay.THESYS_API_URL := Some Scenario.endpoint |}
                (Scenario.post (Scenario.prompt "hi"))
                (Scenario.answering (Scenario.json_answer 200 (Obj [])))
                eq_refl (or_introl eq_refl)) as (Hs & _ & Hc).
    split; assumption.
  - destruct (missing_configuration_gets_500
                {| Relay.THESYS_API_KEY := Some "sk-test";
                   Relay.THESYS_API_URL := Some EmptyString |}
                (Scenario.post (Scenario.prompt "hi"))
                (Scenario.answering (Scenario.json_answer 200 (Obj [])))
                eq_refl (or_intror eq_refl)) as (Hs & _ & Hc).
    split; assumption.
Defined.

(** *** The forwarded request *)

(** C8.  Every POST under a full configuration issues exactly one call of
    [fetch], to the configured URL, with method POST, the header
    [Content-Type: application/json], the header [Authorization] holding
    [Bearer] and the credential, and as body the JSON serialization of the
    inbound body and nothing else. *)
Theorem forwarded_request_is_serialized_body :
  forall (key url : string) (req : Relay.request) (fetch : Relay.transport),
    Relay.method req = "POST" -> key <> "" -> url <> "" ->
    Relay.calls
      (Relay.handler
         {| Relay.THESYS_API_KEY := Some key; Relay.THESYS_API_URL := Some url |}
         req fetch)
    = [(url,
        {| init_method := "POST";
           init_headers := [("Content-Type", "application/json");
                            ("Authorization", "Bearer " ++ key)];
           init_body := stringify (Relay.body req) |})].
Proof.
  intros key url req fetch Hm Hk Hu.
  rewrite handler_forwards by assumption.
  destruct (snd (Relay.forward key url req fetch)); reflexivity.
Qed.

Lemma forwarded_request_is_serialized_body_witness :
  Relay.calls
    (Relay.handler (Scenario.env_with "sk-test")
       (Scenario.post (Scenario.prompt "hi")) Scenario.unreachable)
  = [(Scenario.endpoint,
      {| init_method := "POST";
         init_headers := [("Content-Type", "application/json");
                          ("Authorization", "Bearer sk-test")];
         init_body :=
           Some (String "{" (quote "prompt" ++ ":" ++ quote "hi" ++ "}")) |})].
Proof.
  apply (forwarded_request_is_serialized_body "sk-test" Scenario.endpoint
           (Scenario.post (Scenario.prompt "hi")) Scenario.unreachable);
    [reflexivity | discriminate | discriminate].
Defined.

(** *** Relayed answers *)

Lemma handler_answered (key url : string) (req : Relay.request)
    (fetch : Relay.transport) (up : Relay.upstream_response) :
  Relay.method req = "POST" -> key <> "" -> url <> "" ->
  fetch url (Relay.outbound key req) = Ok up ->
  let o := Relay.handler
             {| Relay.THESYS_API_KEY := Some key; Relay.THESYS_API_URL := Some url |}
             req fetch in
  match Relay.body_read up with
  | Ok p =>
      Relay.sent o = {| Relay.status := Relay.up_status up;
                        Relay.headers := Relay.relayed_headers up;
                        Relay.content := p |} /\
      Relay.logged o = []
  | Throw e =>
      Relay.sent o = Relay.contact_failed /\
      Relay.logged o = [("Error proxying to Thesys:", e)]
  end.
Proof.
  intros Hm Hk Hu Hf o. subst o.
  rewrite handler_forwards by assumption.
  rewrite (forward_answered _ _ _ _ _ Hf).
  destruct (Relay.body_read up); cbn; split; reflexivity.
Qed.

(** C2.  When the call of [fetch] yields a response and its body is read
    without a throw, the relay answers with the upstream's status; a
    content type that includes [application/json] has the parsed document
    handed to [res.json] as it is, and any other content type has the text
    handed to [res.send] with the [content-type] header set to the
    upstream's. *)
Theorem upstream_answer_is_relayed :
  forall (key url : string) (req : Relay.request) (fetch : Relay.transport)
         (up : Relay.upstream_response),
    Relay.method req = "POST" -> key <> "" -> url <> "" ->
    fetch url (Relay.outbound key req) = Ok up ->
    let o := Relay.handler
               {| Relay.THESYS_API_KEY := Some key; Relay.THESYS_API_URL := Some url |}
               req fetch in
    (includes (Relay.contentType up) "application/json" = true ->
     forall data, Relay.up_json up = Ok data ->
       Relay.sent o = {| Relay.status := Relay.up_status up;
                         Relay.headers := [];
                         Relay.content := Relay.Json data |}) /\
    (includes (Relay.contentType up) "application/json" = false ->
     forall text, Relay.up_text up = Ok text ->
       Relay.sent o = {| Relay.status := Relay.up_status up;
                         Relay.headers :=
                           [("content-type", Relay.One (Relay.contentType up))];
                         Relay.content := Relay.Text text |}) /\
    (forall ct, Relay.up_content_type up = Some ct -> Relay.contentType up = ct).
Proof.
  intros key url req fetch up Hm Hk Hu Hf o.
  pose proof (handler_answered key url req fetch up Hm Hk Hu Hf) as H.
  cbv zeta in H. fold o in H.
  unfold Relay.body_read, Relay.relayed_headers in H.
  split; [| split].
  - intros Hj data Hd. rewrite Hj, Hd in H. apply H.
  - intros Hj text Ht. rewrite Hj, Ht in H. apply H.
  - intros ct Hc. unfold Relay.contentType. now rewrite Hc.
Qed.

Lemma upstream_answer_is_relayed_witness :
  let run up :=
    Relay.sent (Relay.handler (Scenario.env_with "sk-test")
                  (Scenario.post (Scenario.prompt "hi")) (Scenario.answering up)) in
  run (Scenario.json_answer 200 (Obj [("output", Str "hi")]))
  = {| Relay.status := 200;
       Relay.headers := [];
       Relay.content := Relay.Json (Obj [("output", Str "hi")]) |} /\
  run (Scenario.text_answer 200 "text/plain" "plain text")
  = {| Relay.status := 200;
       Relay.headers := [("content-type", Relay.One "text/plain")];
       Relay.content := Relay.Text "plain text" |}.
Proof.
  cbv zeta. split.
  - apply (proj1 (upstream_answer_is_relayed "sk-test" Scenario.endpoint
                    (Scenario.post (Scenario.prompt "hi"))
                    (Scenario.answering
                       (Scenario.json_answer 200 (Obj [("output", Str "hi")])))
                    (Scenario.json_answer 200 (Obj [("output", Str "hi")]))
                    eq_refl ltac:(discriminate) ltac:(discriminate) eq_refl));
      reflexivity.
  - apply (proj1 (proj2 (upstream_answer_is_relayed "sk-test" Scenario.endpoint
                    (Scenario.post (Scenario.prompt "hi"))
                    (Scenario.answering
                       (Scenario.text_answer 200 "text/plain" "plain text"))
                    (Scenario.text_answer 200 "text/plain" "plain text")
                    eq_refl ltac:(discriminate) ltac:(discriminate) eq_refl)));
      reflexivity.
Defined.

(** C7.  When the call of [fetch] throws, or the read of the upstream
    body throws, the relay answers with status 500 and the one fixed
    message, whatever was thrown; what was thrown goes to [console.error]
    alone. *)
Theorem upstream_error_gets_generic_500 :
  forall (key url : string) (req : Relay.request) (fetch : Relay.transport)
         (e : exn),
    Relay.method req = "POST" -> key <> "" -> url <> "" ->
    Relay.upstream_fails key url req fetch e ->
    let o := Relay.handler
               {| Relay.THESYS_API_KEY := Some key; Relay.THESYS_API_URL := Some url |}
               req fetch in
    Relay.sent o
      = {| Relay.status := 500;
           Relay.headers := [];
           Relay.content :=
             Relay.Json (Obj [("error", Str "Error contacting Thesys API")]) |} /\
    Relay.logged o = [("Error proxying to Thesys:", e)].
Proof.
  intros key url req fetch e Hm Hk Hu Hfail o. subst o.
  apply forward_thrown in Hfail.
  rewrite handler_forwards, Hfail by assumption.
  split; reflexivity.
Qed.

Lemma upstream_error_gets_generic_500_witness :
  let run fetch :=
    Relay.handler (Scenario.env_with "sk-test")
      (Scenario.post (Scenario.prompt "hi")) fetch in
  (Relay.sent (run Scenario.unreachable) = Relay.contact_failed /\
   Relay.logged (run Scenario.unreachable)
   = [("Error proxying to Thesys:", TypeError "fetch failed")]) /\
  (Relay.sent (run (Scenario.answering (Scenario.malformed_answer 200)))
   = Relay.contact_failed /\
   Relay.logged (run (Scenario.answering (Scenario.malformed_answer 200)))
   = [("Error proxying to Thesys:", SyntaxError "Unexpected end of JSON input")]).
Proof.
  cbv zeta. split.
  - apply (upstream_error_gets_generic_500 "sk-test" Scenario.endpoint
             (Scenario.post (Scenario.prompt "hi")) Scenario.unreachable);
      [reflexivity | discriminate | discriminate | left; reflexivity].
  - apply (upstream_error_gets_generic_500 "sk-test" Scenario.endpoint
             (Scenario.post (Scenario.prompt "hi"))
             (Scenario.answering (Scenario.malformed_answer 200)));
      [reflexivity | discriminate | discriminate |].
    right. exists (Scenario.malformed_answer 200). split; reflexivity.
Defined.

(** *** Upstream refusals *)

(** An upstream that answers 404 with a JSON document: the relay hands on
    the status and the document. *)
Example upstream_404_is_relayed :
  Relay.handler (Scenario.env_with "sk-test")
    (Scenario.post (Scenario.prompt "hi"))
    (Scenario.answering
       (Scenario.json_answer 404 (Obj [("error", Str "no such model")])))
  = {| Relay.sent :=
         {| Relay.status := 404;
            Relay.headers := [];
            Relay.content := Relay.Json (Obj [("error", Str "no such model")]) |};
       Relay.calls := [(Scenario.endpoint,
                        Relay.outbound "sk-test"
                          (Scenario.post (Scenario.prompt "hi")))];
       Relay.logged := [] |}.
Proof. reflexivity. Qed.

(** C4, as stated, fails: a 404 of the upstream reaches the client as a
    404, not as the fixed 500. *)
Lemma upstream_refusal_is_not_turned_into_500 :
  ~ upstream_refusal_becomes_500.
Proof.
  intros claim.
  specialize (claim "sk-test" Scenario.endpoint
                (Scenario.post (Scenario.prompt "hi"))
                (Scenario.answering
                   (Scenario.json_answer 404 (Obj [("error", Str "no such model")])))
                (Scenario.json_answer 404 (Obj [("error", Str "no such model")]))
                (Relay.Json (Obj [("error", Str "no such model")]))).
  assert (H : Relay.status Relay.contact_failed = 404%Z).
  { rewrite <- claim; try reflexivity; try discriminate. right. reflexivity. }
  discriminate H.
Qed.

(** C4, amended.  When the call of [fetch] yields a response and its body
    is read without a throw, the relay answers with the upstream's status
    and body whatever that status is, inside 200..299 or not, and logs
    nothing; the fixed 500 is the answer when the read of the body throws,
    and then the upstream's status is not handed on. *)
Theorem upstream_status_is_passed_through :
  forall (key url : string) (req : Relay.request) (fetch : Relay.transport)
         (up : Relay.upstream_response),
    Relay.method req = "POST" -> key <> "" -> url <> "" ->
    fetch url (Relay.outbound key req) = Ok up ->
    let o := Relay.handler
               {| Relay.THESYS_API_KEY := Some key; Relay.THESYS_API_URL := Some url |}
               req fetch in
    (forall p, Relay.body_read up = Ok p ->
       Relay.status (Relay.sent o) = Relay.up_status up /\
       Relay.content (Relay.sent o) = p /\
       Relay.logged o = []) /\
    (forall e, Relay.body_read up = Throw e ->
       Relay.sent o = Relay.contact_failed /\
       Relay.status (Relay.sent o) = 500%Z /\
       Relay.logged o = [("Error proxying to Thesys:", e)]).
Proof.
  intros key url req fetch up Hm Hk Hu Hf o.
  pose proof (handler_answered key url req fetch up Hm Hk Hu Hf) as H.
  cbv zeta in H. fold o in H.
  split.
  - intros p Hp. rewrite Hp in H. destruct H as [Hs Hl].
    rewrite Hs. cbn. auto.
  - intros e He. rewrite He in H. destruct H as [Hs Hl].
    rewrite Hs. cbn. auto.
Qed.

Lemma upstream_status_is_passed_through_witness :
  let run up :=
    Relay.handler (Scenario.env_with "sk-test")
      (Scenario.post (Scenario.prompt "hi")) (Scenario.answering up) in
  Relay.status
    (Relay.sent (run (Scenario.json_answer 404 (Obj [("error", Str "no such model")]))))
  = 404%Z /\
  Relay.status (Relay.sent (run (Scenario.malformed_answer 200))) = 500%Z.
Proof.
  cbv zeta. split.
  - apply (proj1 (upstream_status_is_passed_through "sk-test" Scenario.endpoint
                    (Scenario.post (Scenario.prompt "hi"))
                    (Scenario.answering
                       (Scenario.json_answer 404 (Obj [("error", Str "no such model")])))
                    (Scenario.json_answer 404 (Obj [("error", Str "no such model")]))
                    eq_refl ltac:(discriminate) ltac:(discriminate) eq_refl)
                 (Relay.Json (Obj [("error", Str "no such model")])) eq_refl).
  - apply (proj2 (upstream_status_is_passed_through "sk-test" Scenario.endpoint
                    (Scenario.post (Scenario.prompt "hi"))
                    (Scenario.answering (Scenario.malformed_answer 200))
                    (Scenario.malformed_answer 200)
                    eq_refl ltac:(discriminate) ltac:(discriminate) eq_refl)
                 (SyntaxError "Unexpected end of JSON input") eq_refl).
Defined.

(** *** The credential *)

(** An upstream that quotes the [Authorization] header in a 401: the relay
    hands the text on, credential included. *)
Example quoted_credential_is_relayed :
  let run k :=
    Relay.sent
      (Relay.handler (Scenario.env_with k)
         (Scenario.post (Scenario.prompt "hi")) Scenario.quoting_authorization) in
  run "s3cr3t"
  = {| Relay.status := 401;
       Relay.headers := [("content-type", Relay.One "text/plain")];
       Relay.content := Relay.Text "invalid credentials: Bearer s3cr3t" |} /\
  Relay.mentions (run "s3cr3t") "s3cr3t" = true /\
  Relay.content (run "s3cr3t") <> Relay.content (run "0ther").
Proof.
  cbv zeta. split; [reflexivity | split; [reflexivity | discriminate]].
Qed.

(** C1, as stated, fails: against an upstream that quotes the
    [Authorization] header in its refusal, the error response the client
    receives mentions the credential and changes with it. *)
Lemma credential_surfaces_when_upstream_quotes_it :
  ~ credential_never_surfaces.
Proof.
  intros claim.
  specialize (claim (Some Scenario.endpoint) "s3cr3t" "0ther"
                (Scenario.post (Scenario.prompt "hi"))
                Scenario.quoting_authorization).
  cbv zeta in claim. destruct claim as [_ Hhidden].
  specialize (Hhidden eq_refl).
  vm_compute in Hhidden. discriminate Hhidden.
Qed.

(** The same statement fails a second way: an empty credential is
    answered with the configuration error, a set one with the answer of
    the run, so two runs that differ in the credential alone can end in
    two different error responses. *)
Example empty_credential_changes_the_error :
  let run k :=
    Relay.sent
      (Relay.handler
         {| Relay.THESYS_API_KEY := Some k;
            Relay.THESYS_API_URL := Some Scenario.endpoint |}
         (Scenario.post (Scenario.prompt "hi")) Scenario.unreachable) in
  run EmptyString = Relay.not_configured /\
  run "sk-test" = Relay.contact_failed /\
  Relay.content (run EmptyString) <> Relay.content (run "sk-test").
Proof.
  cbv zeta. repeat split. discriminate.
Qed.

(** The handler's own answers are three fixed responses; every other
    response is the upstream's status and body. *)
Lemma handler_answers (env : Relay.environment) (req : Relay.request)
    (fetch : Relay.transport) :
  let o := Relay.handler env req fetch in
  Relay.sent o = Relay.method_not_allowed \/
  Relay.sent o = Relay.not_configured \/
  Relay.sent o = Relay.contact_failed \/
  exists key url up p,
    Relay.THESYS_API_KEY env = Some key /\
    Relay.THESYS_API_URL env = Some url /\
    fetch url (Relay.outbound key req) = Ok up /\
    Relay.body_read up = Ok p /\
    Relay.sent o = {| Relay.status := Relay.up_status up;
                      Relay.headers := Relay.relayed_headers up;
                      Relay.content := p |}.
Proof.
  cbv zeta.
  destruct (String.eqb_spec (Relay.method req) "POST") as [Hm|Hm].
  2: { left. now rewrite handler_other_method. }
  destruct env as [[key|] [url|]].
  2, 3, 4: right; left; now rewrite handler_unconfigured by (auto; cbn; auto).
  destruct (String.eqb_spec key "") as [Hk|Hk].
  { right; left. rewrite handler_unconfigured; auto.
    left. subst key. reflexivity. }
  destruct (String.eqb_spec url "") as [Hu|Hu].
  { right; left. rewrite handler_unconfigured; auto.
    right. subst url. reflexivity. }
  destruct (fetch url (Relay.outbound key req)) as [up|e] eqn:Hf.
  - pose proof (handler_answered key url req fetch up Hm Hk Hu Hf) as H.
    cbv zeta in H.
    destruct (Relay.body_read up) as [p|e] eqn:Hb.
    + right; right; right. exists key, url, up, p. cbn. intuition.
    + right; right; left. apply H.
  - right; right; left.
    rewrite handler_forwards by assumption.
    now rewrite (proj1 (forward_thrown key url req fetch e) (or_introl Hf)).
Qed.

(** The credential reaches the [try] block through the call of [fetch]
    alone. *)
Lemma forward_depends_on_answer_only (k1 k2 url : string) (req : Relay.request)
    (fetch : Relay.transport) :
  fetch url (Relay.outbound k1 req) = fetch url (Relay.outbound k2 req) ->
  snd (Relay.forward k1 url req fetch) = snd (Relay.forward k2 url req fetch).
Proof.
  intros Hsame. unfold Relay.forward, then_, Relay.call. cbn [fst snd].
  rewrite Hsame. now destruct (fetch url (Relay.outbound k2 req)).
Qed.

(** C1, amended.  The relay itself writes the credential into no response:
    two runs under two non-empty credentials, on the same request and with
    an upstream whose answer is the same for both, end in the same
    response and the same log entry; and the responses the handler makes
    up itself are three fixed ones, every other response being the status
    and body the upstream gave. *)
Theorem relay_adds_no_credential :
  (forall (url : option string) (k1 k2 : string) (req : Relay.request)
          (fetch : Relay.transport),
     k1 <> "" -> k2 <> "" ->
     (forall u, fetch u (Relay.outbound k1 req) = fetch u (Relay.outbound k2 req)) ->
     let run k :=
       Relay.handler
         {| Relay.THESYS_API_KEY := Some k; Relay.THESYS_API_URL := url |}
         req fetch in
     Relay.sent (run k1) = Relay.sent (run k2) /\
     Relay.logged (run k1) = Relay.logged (run k2)) /\
  (forall (env : Relay.environment) (req : Relay.request) (fetch : Relay.transport),
     let o := Relay.handler env req fetch in
     Relay.sent o = Relay.method_not_allowed \/
     Relay.sent o = Relay.not_configured \/
     Relay.sent o = Relay.contact_failed \/
     exists key url up p,
       Relay.THESYS_API_KEY env = Some key /\
       Relay.THESYS_API_URL env = Some url /\
       fetch url (Relay.outbound key req) = Ok up /\
       Relay.body_read up = Ok p /\
       Relay.sent o = {| Relay.status := Relay.up_status up;
                         Relay.headers := Relay.relayed_headers up;
                         Relay.content := p |}).
Proof.
  split; [| exact handler_answers].
  intros url k1 k2 req fetch Hk1 Hk2 Hsame run. subst run.
  destruct (String.eqb_spec (Relay.method req) "POST") as [Hm|Hm].
  - destruct url as [u|].
    + destruct (String.eqb_spec u "") as [Hu|Hu].
      * rewrite !handler_unconfigured; auto; right; subst u; reflexivity.
      * rewrite !handler_forwards by assumption.
        rewrite (forward_depends_on_answer_only k1 k2 u req fetch (Hsame u)).
        destruct (snd (Relay.forward k2 u req fetch)); split; reflexivity.
    + rewrite !handler_unconfigured; auto.
  - rewrite !handler_other_method by assumption. split; reflexivity.
Qed.

Lemma relay_adds_no_credential_witness :
  let run k :=
    Relay.handler
      {| Relay.THESYS_API_KEY := Some k;
         Relay.THESYS_API_URL := Some Scenario.endpoint |}
      (Scenario.post (Scenario.prompt "hi"))
      (Scenario.answering (Scenario.malformed_answer 502)) in
  Relay.sent (run "s3cr3t") = Relay.sent (run "0ther") /\
  Relay.logged (run "s3cr3t") = Relay.logged (run "0ther").
Proof.
  apply (proj1 relay_adds_no_credential (Some Scenario.endpoint) "s3cr3t" "0ther"
           (Scenario.post (Scenario.prompt "hi"))
           (Scenario.answering (Scenario.malformed_answer 502)));
    [discriminate | discriminate | reflexivity].
Defined.

(* ===================================================================== *)
(** ** Properties of the chat client *)
(* ===================================================================== *)

(** *** Reads *)

Lemma get_field (v : value) (p : prop_name) :
  nullish v = false -> get v p = Ok (Chat.field v p).
Proof.
  destruct v; cbn; intros H; try discriminate H; try reflexivity.
  now destruct (own props (key p)).
Qed.

Lemma truthy_not_nullish (v : value) : to_boolean v = true -> nullish v = false.
Proof. destruct v; cbn; congruence. Qed.

Lemma field_of_falsy (v : value) (p : prop_name) :
  to_boolean v = false -> Chat.field v p = Undefined.
Proof. destruct v; cbn; congruence. Qed.

Lemma field_of_nullish (v : value) (p : prop_name) :
  nullish v = true -> Chat.field v p = Undefined.
Proof. destruct v; cbn; congruence. Qed.

(** The element the guarded read [json.choices[0]] yields. *)
Lemma elem0_first_choice (json : value) :
  isArray (Chat.field json P_choices) = true ->
  elem0 (Chat.field json P_choices) = Ok (Chat.first_choice json).
Proof.
  unfold Chat.first_choice.
  destruct (Chat.field json P_choices) as [| | | | |items|]; cbn;
    try discriminate.
  now destruct items.
Qed.

Lemma first_choice_without_array (json : value) :
  isArray (Chat.field json P_choices) = false ->
  Chat.first_choice json = Undefined.
Proof.
  unfold Chat.first_choice.
  now destruct (Chat.field json P_choices).
Qed.

(** *** The extraction *)

(** On every value but [undefined] and [null] the expression evaluates
    without a throw, to the first candidate that resolves. *)
Lemma assistantText_resolves (json : value) :
  nullish json = false ->
  Chat.assistantText json = Ok (Chat.extraction_order json).
Proof.
  intros Hj.
  unfold Chat.assistantText, Chat.extraction_order, Chat.candidates.
  rewrite !(get_field json) by exact Hj.
  cbn [bind Chat.first_resolved]. unfold js_or at 1. cbn [bind].
  destruct (to_boolean (Chat.field json P_output)) eqn:Hout; [reflexivity|].
  destruct (isArray (Chat.field json P_choices)) eqn:Harr.
  - rewrite (elem0_first_choice json Harr).
    set (c0 := Chat.first_choice json).
    unfold js_or at 1, js_and at 1. cbn [bind to_boolean].
    unfold js_and. cbn [bind].
    destruct (to_boolean c0) eqn:Hc0.
    + rewrite !(get_field c0) by (apply truthy_not_nullish; exact Hc0).
      unfold js_or, get_opt. cbn [bind].
      destruct (to_boolean (Chat.field c0 P_text)) eqn:Htext.
      { cbn [bind]. now rewrite Htext. }
      destruct (nullish (Chat.field c0 P_message)) eqn:Hmsg.
      * rewrite (field_of_nullish _ P_content Hmsg). reflexivity.
      * rewrite (get_field _ P_content Hmsg). cbn [bind].
        now destruct (to_boolean (Chat.field (Chat.field c0 P_message) P_content)).
    + cbn [bind]. rewrite Hc0.
      rewrite !(field_of_falsy c0) by exact Hc0. reflexivity.
  - rewrite (first_choice_without_array json Harr).
    unfold js_or, js_and. cbn. reflexivity.
Qed.

Lemma assistantText_nullish (json : value) :
  nullish json = true -> Chat.assistantText json = get json P_output.
Proof.
  destruct json; cbn; intros H; try discriminate H; reflexivity.
Qed.

(** C3.  The expression evaluates the candidates in this order and takes
    the first that resolves: the [output] field, the [text] field of the
    first element of the [choices] array, the [content] field of that
    element's [message], and last the serialization of the whole payload
    (the read of [output] throws on [null] and [undefined]).  So the
    normalizer returns [x] on [{choices:[{message:{content:x}}]}], [y] on
    [{choices:[{text:y}]}], the serialized object on [{foo:bar}], and [z]
    on [{output:z}] whatever [choices] field stands beside it. *)
Theorem extraction_follows_the_order :
  (forall json : value,
     Chat.assistantText json
     = if nullish json then get json P_output
       else Ok (Chat.first_resolved
                  [Chat.field json P_output;
                   Chat.field (Chat.first_choice json) P_text;
                   Chat.field (Chat.field (Chat.first_choice json) P_message)
                     P_content]
                  (stringify_value json))) /\
  Chat.normalizer
    (Obj [("choices", Arr [Obj [("message", Obj [("content", Str "x")])]])])
  = Ok "x" /\
  Chat.normalizer (Obj [("choices", Arr [Obj [("text", Str "y")]])]) = Ok "y" /\
  (let q := String dquote EmptyString in
   Chat.normalizer (Obj [("foo", Str "bar")])
   = Ok ("{" ++ q ++ "foo" ++ q ++ ":" ++ q ++ "bar" ++ q ++ "}")) /\
  (forall choices : value,
     Chat.normalizer (Obj [("output", Str "z"); ("choices", choices)]) = Ok "z" /\
     Chat.normalizer (Obj [("choices", choices); ("output", Str "z")]) = Ok "z").
Proof.
  split; [| repeat split].
  intros json. destruct (nullish json) eqn:Hj.
  - now apply assistantText_nullish.
  - now apply assistantText_resolves.
Qed.

(** X5.  A payload on which no candidate resolves, each of [output],
    the first choice's [text] and its [message.content] being absent or
    falsy (the empty string, [0], [false], [null]), is answered with the
    serialization of the whole payload. *)
Lemma unrecognized_shape_is_serialized (json : value) (s : string) :
  nullish json = false ->
  forallb (fun c => negb (to_boolean c)) (Chat.candidates json) = true ->
  stringify json = Some s ->
  Chat.normalizer json = Ok s.
Proof.
  intros Hj Hnone Hs. unfold Chat.normalizer.
  rewrite (assistantText_resolves json Hj).
  unfold Chat.extraction_order, stringify_value. rewrite Hs.
  unfold Chat.candidates in *. cbn [forallb] in Hnone.
  repeat (apply andb_prop in Hnone; destruct Hnone as [?H Hnone]).
  repeat match goal with
         | H : negb _ = true |- _ => apply negb_true_iff in H
         end.
  cbn [Chat.first_resolved bind].
  now rewrite H, H0, H1.
Qed.

(** *** [String] *)

Lemma to_string_printable :
  forall v : value, printable v = true -> exists s, to_string v = Ok s.
Proof.
  fix IH 1. intros v.
  destruct v as [| |b|t|s|items|props]; cbn [printable to_string].
  - eauto.
  - eauto.
  - destruct b; eauto.
  - eauto.
  - eauto.
  - intros Hp.
    assert (Hparts : exists parts,
               sequence (map (fun x => if nullish x then Ok EmptyString
                                       else to_string x) items) = Ok parts).
    { revert items Hp. fix IHitems 1. intros items.
      destruct items as [|x rest]; cbn [forallb map sequence].
      - eauto.
      - intros Hp. apply andb_prop in Hp. destruct Hp as [Hx Hrest].
        destruct (IHitems rest Hrest) as [parts Hparts]. rewrite Hparts.
        destruct (nullish x).
        + cbn. eauto.
        + destruct (IH x Hx) as [sx Hsx]. rewrite Hsx. cbn. eauto. }
    destruct Hparts as [parts Hparts]. rewrite Hparts. cbn. eauto.
  - intros Hp. apply negb_true_iff in Hp. rewrite Hp. eauto.
Qed.

(** Apart from [null] and [undefined], the normalizer returns a string
    whenever the candidate it settles on is one [String] converts. *)
Lemma normalizer_returns_elsewhere (json : value) :
  nullish json = false ->
  printable (Chat.extraction_order json) = true ->
  exists s, Chat.normalizer json = Ok s.
Proof.
  intros Hj Hp. unfold Chat.normalizer.
  rewrite (assistantText_resolves json Hj). cbn [bind].
  now apply to_string_printable.
Qed.

(** C9.  The claim holds of the code on every payload but one kind: on
    [null], a value a JSON text denotes, the read of [output] throws, so
    the normalizer returns no string; [send] catches the throw and shows
    its message in place of the reply. *)
Theorem normalizer_throws_on_null :
  is_json Null = true /\
  Chat.normalizer Null
  = Throw (TypeError "Cannot read properties of null (reading 'output')") /\
  Chat.messages
    (Chat.after_send (Scenario.idle "hi") (Scenario.relay_answering Null))
  = [ {| Chat.msg_role := Chat.user; Chat.msg_text := "hi" |};
      {| Chat.msg_role := Chat.assistant;
         Chat.msg_text :=
           "Error: Cannot read properties of null (reading 'output')" |} ].
Proof.
  repeat split.
Qed.

(** A second payload on which the normalizer throws: an [output] object
    with an own [toString] member. *)
Example normalizer_throws_on_shadowed_toString :
  is_json (Obj [("output", Obj [("toString", Num "1")])]) = true /\
  Chat.normalizer (Obj [("output", Obj [("toString", Num "1")])])
  = Throw (TypeError "Cannot convert object to primitive value").
Proof. split; reflexivity. Qed.

(** *** The guard of [send] *)

Lemma trimStart_blank (s : string) :
  all_whitespace s = true -> trimStart s = EmptyString.
Proof.
  induction s as [|c rest IH]; cbn; [reflexivity|].
  intros H. apply andb_prop in H. destruct H as [Hc Hrest].
  rewrite Hc. now apply IH.
Qed.

Lemma trimStart_head (s : string) :
  match trimStart s with
  | EmptyString => all_whitespace s = true
  | String c _ => is_whitespace c = false
  end.
Proof.
  induction s as [|c rest IH]; cbn; [reflexivity|].
  destruct (is_whitespace c) eqn:Hc; cbn; [exact IH | exact Hc].
Qed.

Lemma trimEnd_empty (s : string) :
  trimEnd s = EmptyString <-> all_whitespace s = true.
Proof.
  induction s as [|c rest IH]; cbn; [tauto|].
  destruct (trimEnd rest) as [|c' rest'] eqn:Hrest.
  - destruct (is_whitespace c); cbn.
    + split; intros _; [now apply IH | reflexivity].
    + split; discriminate.
  - split; [discriminate|].
    intros H. apply andb_prop in H. destruct H as [_ H].
    apply IH in H. discriminate H.
Qed.

(** [trim] leaves nothing exactly of the strings that are empty or hold
    white space only. *)
Lemma trim_empty (s : string) :
  trim s = EmptyString <-> all_whitespace s = true.
Proof.
  unfold trim. rewrite trimEnd_empty. split.
  - intros H. pose proof (trimStart_head s) as Hh.
    destruct (trimStart s) as [|c rest]; [exact Hh|].
    cbn in H. rewrite Hh in H. discriminate H.
  - intros H. now rewrite (trimStart_blank s H).
Qed.

(** C10.  When the input is empty or holds white space only, [send] does
    nothing: it appends no message, issues no request and never sets the
    loading flag, and the component's state is what it was. *)
Theorem send_ignores_blank_input :
  forall (typed : string) (fetch : Chat.transport),
    all_whitespace typed = true ->
    Chat.send typed fetch = [] /\
    (forall st : Chat.state,
       Chat.input st = typed -> Chat.after_send st fetch = st).
Proof.
  intros typed fetch Hblank.
  assert (Hnone : Chat.send typed fetch = []).
  { unfold Chat.send. apply trim_empty in Hblank. now rewrite Hblank. }
  split; [exact Hnone|].
  intros st Hin. unfold Chat.after_send. now rewrite Hin, Hnone.
Qed.

Lemma send_ignores_blank_input_witness :
  let blank := String " " (String "009" (String "010" (String "160" EmptyString))) in
  Chat.send blank Scenario.relay_down = [] /\
  Chat.after_send (Scenario.idle blank) Scenario.relay_down = Scenario.idle blank.
Proof.
  cbv zeta.
  destruct (send_ignores_blank_input
              (String " " (String "009" (String "010" (String "160" EmptyString))))
              Scenario.relay_down eq_refl) as [Hnone Hsame].
  split; [exact Hnone | exact (Hsame (Scenario.idle _) eq_refl)].
Defined.

(** On any other input [send] runs its three first calls, the [try]
    block with its [catch] clause, and the [finally] clause. *)
Lemma send_runs (typed : string) (fetch : Chat.transport) :
  all_whitespace typed = false ->
  Chat.send typed fetch
  = ([Chat.SetMessages {| Chat.msg_role := Chat.user; Chat.msg_text := trim typed |};
      Chat.SetInput EmptyString;
      Chat.SetLoading true]
     ++ fst (catch (Chat.try_block (trim typed) fetch) Chat.catch_block)
     ++ [Chat.SetLoading false])%list.
Proof.
  intros Htext. unfold Chat.send.
  destruct (String.eqb_spec (trim typed) "") as [He|He].
  - apply trim_empty in He. congruence.
  - reflexivity.
Qed.

(** The [try] block begins with the request, whatever comes of it. *)
Lemma try_block_starts (trimmed : string) (fetch : Chat.transport) :
  exists more,
    fst (catch (Chat.try_block trimmed fetch) Chat.catch_block)
    = Chat.Fetch "/api/thesys" (Chat.request_init trimmed) :: more.
Proof.
  unfold catch, Chat.try_block, then_, Chat.request. cbn [fst snd].
  destruct (fetch "/api/thesys" (Chat.request_init trimmed)) as [res|e];
    cbn [fst snd app]; [|eauto].
  destruct (negb (Chat.ok res)).
  - destruct (Chat.res_text res); cbn; eauto.
  - destruct (Chat.res_json res) as [json|e]; cbn; [|eauto].
    destruct (Chat.assistantText json); cbn; eauto.
Qed.

(** Any other input makes [send] act: it appends the trimmed text as a
    user message, clears the input, sets the loading flag and issues the
    request. *)
Lemma send_acts_on_text (typed : string) (fetch : Chat.transport) :
  all_whitespace typed = false ->
  exists rest,
    Chat.send typed fetch
    = ([Chat.SetMessages {| Chat.msg_role := Chat.user; Chat.msg_text := trim typed |};
        Chat.SetInput EmptyString;
        Chat.SetLoading true;
        Chat.Fetch "/api/thesys" (Chat.request_init (trim typed))] ++ rest)%list.
Proof.
  intros Htext. rewrite (send_runs typed fetch Htext).
  destruct (try_block_starts (trim typed) fetch) as [more Hmore].
  rewrite Hmore. eexists. reflexivity.
Qed.

(* ===================================================================== *)
(** ** Further properties of the relay *)
(* ===================================================================== *)

(** *** [includes] *)

Lemma prefix_append (p rest : string) : String.prefix p (p ++ rest) = true.
Proof.
  induction p as [|c p IH]; cbn.
  - now destruct rest.
  - destruct (Ascii.ascii_dec c c) as [_|Hne]; [exact IH | now elim Hne].
Qed.

Lemma includes_infix (before sub after : string) :
  includes (before ++ sub ++ after) sub = true.
Proof.
  induction before as [|c before IH]; cbn [append].
  - destruct (sub ++ after) as [|c rest] eqn:Hs; cbn [includes].
    + destruct sub; [reflexivity | discriminate Hs].
    + rewrite <- Hs, prefix_append. reflexivity.
  - cbn [includes]. rewrite IH. apply orb_true_r.
Qed.

(** *** Outbound calls *)

(** X1.  A run of the handler issues one call of [fetch] when the method
    is POST and both configuration values are set and not empty, and none
    otherwise; it never issues a second one, whatever the upstream does. *)
Theorem at_most_one_upstream_call :
  forall (env : Relay.environment) (req : Relay.request) (fetch : Relay.transport),
    length (Relay.calls (Relay.handler env req fetch))
    = if String.eqb (Relay.method req) "POST"
         && Relay.configured (Relay.THESYS_API_KEY env)
         && Relay.configured (Relay.THESYS_API_URL env)
      then 1 else 0.
Proof.
  intros [key url] req fetch.
  cbn [Relay.THESYS_API_KEY Relay.THESYS_API_URL].
  destruct (String.eqb_spec (Relay.method req) "POST") as [Hm|Hm].
  - destruct (Relay.configured key) eqn:Hk.
    + destruct (Relay.configured url) eqn:Hu.
      * destruct key as [k|]; [|discriminate Hk].
        destruct url as [u|]; [|discriminate Hu].
        cbn in Hk, Hu. apply negb_true_iff in Hk, Hu.
        apply String.eqb_neq in Hk, Hu.
        rewrite handler_forwards by assumption.
        destruct (snd (Relay.forward k u req fetch)); reflexivity.
      * rewrite handler_unconfigured; auto.
    + rewrite handler_unconfigured; auto.
  - now rewrite handler_other_method.
Qed.

(** *** The content type *)

(** X2.  An upstream response without a [content-type] header is relayed
    as text, never parsed, with the upstream's status and a [content-type]
    header set to the empty string. *)
Theorem missing_content_type_is_relayed_as_text :
  forall (key url : string) (req : Relay.request) (fetch : Relay.transport)
         (up : Relay.upstream_response) (text : string),
    Relay.method req = "POST" -> key <> "" -> url <> "" ->
    fetch url (Relay.outbound key req) = Ok up ->
    Relay.up_content_type up = None ->
    Relay.up_text up = Ok text ->
    Relay.sent
      (Relay.handler
         {| Relay.THESYS_API_KEY := Some key; Relay.THESYS_API_URL := Some url |}
         req fetch)
    = {| Relay.status := Relay.up_status up;
         Relay.headers := [("content-type", Relay.One EmptyString)];
         Relay.content := Relay.Text text |}.
Proof.
  intros key url req fetch up text Hm Hk Hu Hf Hct Htext.
  pose proof (handler_answered key url req fetch up Hm Hk Hu Hf) as H.
  cbv zeta in H.
  unfold Relay.body_read, Relay.relayed_headers, Relay.contentType in H.
  rewrite Hct, Htext in H. cbn in H. apply H.
Qed.

Lemma missing_content_type_is_relayed_as_text_witness :
  let bare := {| Relay.up_status := 200;
                 Relay.up_content_type := None;
                 Relay.up_json := Ok (Obj [("output", Str "hi")]);
                 Relay.up_text := Ok "{ }" |} in
  Relay.sent
    (Relay.handler (Scenario.env_with "sk-test")
       (Scenario.post (Scenario.prompt "hi")) (Scenario.answering bare))
  = {| Relay.status := 200;
       Relay.headers := [("content-type", Relay.One EmptyString)];
       Relay.content := Relay.Text "{ }" |}.
Proof.
  cbv zeta.
  apply (missing_content_type_is_relayed_as_text "sk-test" Scenario.endpoint
           (Scenario.post (Scenario.prompt "hi"))
           (Scenario.answering
              {| Relay.up_status := 200;
                 Relay.up_content_type := None;
                 Relay.up_json := Ok (Obj [("output", Str "hi")]);
                 Relay.up_text := Ok "{ }" |})
           {| Relay.up_status := 200;
              Relay.up_content_type := None;
              Relay.up_json := Ok (Obj [("output", Str "hi")]);
              Relay.up_text := Ok "{ }" |});
    first [reflexivity | discriminate].
Defined.

(** X3.  A content type that holds [application/json] anywhere, with
    whatever stands before it and after it (a [charset] parameter, say),
    selects the JSON branch: the parsed document is the answer and no
    header is set. *)
Theorem json_content_type_with_parameters :
  forall (key url : string) (req : Relay.request) (fetch : Relay.transport)
         (up : Relay.upstream_response) (before after : string) (data : value),
    Relay.method req = "POST" -> key <> "" -> url <> "" ->
    fetch url (Relay.outbound key req) = Ok up ->
    Relay.up_content_type up = Some (before ++ "application/json" ++ after) ->
    Relay.up_json up = Ok data ->
    Relay.sent
      (Relay.handler
         {| Relay.THESYS_API_KEY := Some key; Relay.THESYS_API_URL := Some url |}
         req fetch)
    = {| Relay.status := Relay.up_status up;
         Relay.headers := [];
         Relay.content := Relay.Json data |}.
Proof.
  intros key url req fetch up before after data Hm Hk Hu Hf Hct Hdata.
  pose proof (handler_answered key url req fetch up Hm Hk Hu Hf) as H.
  cbv zeta in H.
  unfold Relay.body_read, Relay.relayed_headers, Relay.contentType in H.
  rewrite Hct, includes_infix, Hdata in H. apply H.
Qed.

Lemma json_content_type_with_parameters_witness :
  Relay.sent
    (Relay.handler (Scenario.env_with "sk-test")
       (Scenario.post (Scenario.prompt "hi"))
       (Scenario.answering
          {| Relay.up_status := 201;
             Relay.up_content_type := Some "application/json; charset=utf-8";
             Relay.up_json := Ok (Obj [("output", Str "hi")]);
             Relay.up_text := Ok "ignored" |}))
  = {| Relay.status := 201;
       Relay.headers := [];
       Relay.content := Relay.Json (Obj [("output", Str "hi")]) |}.
Proof.
  apply (json_content_type_with_parameters "sk-test" Scenario.endpoint
           (Scenario.post (Scenario.prompt "hi"))
           (Scenario.answering
              {| Relay.up_status := 201;
                 Relay.up_content_type := Some "application/json; charset=utf-8";
                 Relay.up_json := Ok (Obj [("output", Str "hi")]);
                 Relay.up_text := Ok "ignored" |})
           {| Relay.up_status := 201;
              Relay.up_content_type := Some "application/json; charset=utf-8";
              Relay.up_json := Ok (Obj [("output", Str "hi")]);
              Relay.up_text := Ok "ignored" |}
           EmptyString "; charset=utf-8" (Obj [("output", Str "hi")]));
    first [reflexivity | discriminate].
Defined.

(** *** The log *)

(** X4.  The handler writes to [console.error] at most once per run, and
    only together with the fixed 500 of the exception path: a run that
    logged something issued its call of [fetch] and answered
    [Error contacting Thesys API]; the 405 and the configuration error are
    never logged. *)
Theorem log_only_on_exception_path :
  forall (env : Relay.environment) (req : Relay.request) (fetch : Relay.transport),
    let o := Relay.handler env req fetch in
    Relay.logged o = [] \/
    (exists e, Relay.logged o = [("Error proxying to Thesys:", e)]) /\
    Relay.sent o = Relay.contact_failed /\
    length (Relay.calls o) = 1.
Proof.
  intros [key url] req fetch o. subst o.
  destruct (String.eqb_spec (Relay.method req) "POST") as [Hm|Hm].
  2: { left. now rewrite handler_other_method. }
  destruct key as [k|], url as [u|];
    try (left; rewrite handler_unconfigured; auto; fail).
  destruct (String.eqb_spec k "") as [Hk|Hk].
  { left. rewrite handler_unconfigured; auto. left. now subst k. }
  destruct (String.eqb_spec u "") as [Hu|Hu].
  { left. rewrite handler_unconfigured; auto. right. now subst u. }
  rewrite handler_forwards by assumption.
  destruct (snd (Relay.forward k u req fetch)) as [r|e].
  - left. reflexivity.
  - right. cbn. eauto.
Qed.

(* ===================================================================== *)
(** ** Further properties of the normalizer *)
(* ===================================================================== *)

Lemma unrecognized_shape_is_serialized_witness :
  Chat.normalizer (Obj [("output", Str EmptyString); ("choices", Arr []); ("id", Num "7")])
  = Ok ("{" ++ quote "output" ++ ":" ++ quote EmptyString ++ ","
            ++ quote "choices" ++ ":[],"
            ++ quote "id" ++ ":7}").
Proof.
  apply (unrecognized_shape_is_serialized
           (Obj [("output", Str EmptyString); ("choices", Arr []); ("id", Num "7")]));
    reflexivity.
Defined.

(** [String] throws on exactly the values that are not [printable], and
    always the same error. *)
Lemma to_string_unprintable :
  forall v : value, printable v = false -> to_string v = Throw to_primitive_error.
Proof.
  fix IH 1. intros v.
  destruct v as [| |b|t|s|items|props]; cbn [printable to_string];
    try discriminate.
  - intros Hp.
    assert (Hparts :
              sequence (map (fun x => if nullish x then Ok EmptyString
                                      else to_string x) items)
              = Throw to_primitive_error).
    { revert items Hp. fix IHitems 1. intros items.
      destruct items as [|x rest]; cbn [forallb map sequence].
      - discriminate.
      - intros Hp. destruct (printable x) eqn:Hx.
        + cbn [andb] in Hp. rewrite (IHitems rest Hp).
          destruct (nullish x); [reflexivity|].
          destruct (to_string_printable x Hx) as [sx Hsx]. now rewrite Hsx.
        + rewrite (IH x Hx).
          destruct x; cbn in Hx |- *; try discriminate; reflexivity. }
    now rewrite Hparts.
  - intros Hp. apply negb_false_iff in Hp. now rewrite Hp.
Qed.

(** X6.  The normalizer throws in two situations and no other: on [null]
    and [undefined], where the read of [output] throws, and when the
    candidate it settles on is an object with an own [toString] member or
    an array that holds one, where [String] throws; everywhere else it
    returns a string. *)
Theorem normalizer_outcomes :
  forall json : value,
    match Chat.normalizer json with
    | Ok _ =>
        nullish json = false /\ printable (Chat.extraction_order json) = true
    | Throw e =>
        (nullish json = true /\
         (e = read_error "null" "output" \/ e = read_error "undefined" "output")) \/
        (nullish json = false /\
         printable (Chat.extraction_order json) = false /\
         e = to_primitive_error)
    end.
Proof.
  intros json. unfold Chat.normalizer.
  destruct (nullish json) eqn:Hj.
  - rewrite (assistantText_nullish json Hj).
    destruct json; try discriminate Hj; cbn; left; auto.
  - rewrite (assistantText_resolves json Hj). cbn [bind].
    destruct (printable (Chat.extraction_order json)) eqn:Hp.
    + destruct (to_string_printable _ Hp) as [s Hs]. rewrite Hs. auto.
    + rewrite (to_string_unprintable _ Hp). right. auto.
Qed.

(** X7.  A payload that is no object (an array, a string, a number, a
    boolean) has none of the fields, so the normalizer returns its JSON
    serialization: a string payload is shown with its quotes. *)
Theorem scalar_and_array_payloads_are_serialized :
  forall (json : value) (s : string),
    Observed.not_an_object json = true ->
    stringify json = Some s ->
    Chat.normalizer json = Ok s.
Proof.
  intros json s Hshape Hs. unfold Chat.normalizer.
  rewrite assistantText_resolves by now destruct json.
  unfold Chat.extraction_order, stringify_value. rewrite Hs.
  now destruct json.
Qed.

Lemma scalar_and_array_payloads_are_serialized_witness :
  Chat.normalizer (Str "hello") = Ok (quote "hello") /\
  Chat.normalizer (Arr [Num "1"; Null; Bool true]) = Ok "[1,null,true]".
Proof.
  split.
  - apply (scalar_and_array_payloads_are_serialized (Str "hello")); reflexivity.
  - apply (scalar_and_array_payloads_are_serialized (Arr [Num "1"; Null; Bool true]));
      reflexivity.
Defined.

(** X8.  When the candidate the normalizer settles on is an [output]
    object (a structured reply, not a string) without an own [toString]
    member, the text shown is [[object Object]], not the object's
    content. *)
Theorem object_output_shows_object_Object :
  forall (props inner : list (string * value)),
    own props "output" = Some (Obj inner) ->
    has_own inner "toString" = false ->
    Chat.normalizer (Obj props) = Ok "[object Object]".
Proof.
  intros props inner Hout Hplain. unfold Chat.normalizer.
  rewrite assistantText_resolves by reflexivity.
  unfold Chat.extraction_order, Chat.candidates.
  cbn [Chat.first_resolved Chat.field key]. rewrite Hout.
  cbn [to_boolean bind to_string]. now rewrite Hplain.
Qed.

Lemma object_output_shows_object_Object_witness :
  Chat.normalizer
    (Obj [("output", Obj [("text", Str "the reply")]);
          ("choices", Arr [Obj [("text", Str "second best")]])])
  = Ok "[object Object]".
Proof.
  apply (object_output_shows_object_Object
           [("output", Obj [("text", Str "the reply")]);
            ("choices", Arr [Obj [("text", Str "second best")]])]
           [("text", Str "the reply")]);
    reflexivity.
Defined.

(* ===================================================================== *)
(** ** Further properties of [send] *)
(* ===================================================================== *)

(** *** What [trim] removes and what it leaves *)

Lemma trimStart_split (s : string) :
  exists before, s = before ++ trimStart s /\ all_whitespace before = true.
Proof.
  induction s as [|c rest [before [Hs Hb]]]; cbn.
  - exists EmptyString. split; reflexivity.
  - destruct (is_whitespace c) eqn:Hc.
    + exists (String c before). cbn. rewrite Hc, Hb. split; [now rewrite <- Hs | reflexivity].
    + exists EmptyString. split; reflexivity.
Qed.

Lemma trimEnd_split (s : string) :
  exists after, s = trimEnd s ++ after /\ all_whitespace after = true.
Proof.
  induction s as [|c rest [after [Hs Ha]]]; cbn.
  - exists EmptyString. split; reflexivity.
  - destruct (trimEnd rest) as [|c' rest'] eqn:Hrest.
    + destruct (is_whitespace c) eqn:Hc.
      * exists (String c after). cbn in *. rewrite Hc, Ha.
        split; [now rewrite <- Hs | reflexivity].
      * exists after. cbn in *. split; [now rewrite <- Hs | exact Ha].
    + exists after. cbn in *. split; [now rewrite <- Hs | exact Ha].
Qed.

Lemma trimStart_tidy (s : string) : Observed.tidy_start (trimStart s) = true.
Proof.
  pose proof (trimStart_head s) as H.
  destruct (trimStart s); cbn; [reflexivity | now rewrite H].
Qed.

Lemma trimEnd_keeps_start (s : string) :
  Observed.tidy_start s = true -> Observed.tidy_start (trimEnd s) = true.
Proof.
  destruct s as [|c rest]; cbn; [reflexivity|].
  intros Hc. destruct (trimEnd rest); [|exact Hc].
  destruct (is_whitespace c) eqn:E; cbn; [reflexivity | now rewrite E].
Qed.

Lemma trimEnd_tidy (s : string) : Observed.tidy_end (trimEnd s) = true.
Proof.
  induction s as [|c rest IH]; cbn; [reflexivity|].
  destruct (trimEnd rest) as [|c' rest'] eqn:Hrest.
  - destruct (is_whitespace c) eqn:Hc; cbn; [reflexivity | now rewrite Hc].
  - exact IH.
Qed.

(** *** The run on an input that is not blank *)

(** How the [try] block ends, by what the local endpoint does. *)

Lemma try_block_thrown (trimmed : string) (fetch : Chat.transport) (e : exn) :
  Observed.try_block_fails trimmed fetch e ->
  Chat.try_block trimmed fetch
  = ([Chat.Fetch "/api/thesys" (Chat.request_init trimmed)], Throw e).
Proof.
  unfold Observed.try_block_fails, Chat.try_block, then_, Chat.request.
  cbn [fst snd].
  intros [Hf | [res [Hf [[Hok Ht] | [[Hok Hj] | [Hok [json [Hj Hn]]]]]]]];
    rewrite Hf; try rewrite Hok; cbn [negb fst snd lift].
  - reflexivity.
  - now rewrite Ht.
  - now rewrite Hj.
  - rewrite Hj. cbn [fst snd]. now rewrite Hn.
Qed.

Lemma try_block_refused (trimmed : string) (fetch : Chat.transport)
    (res : Chat.relay_response) (errText : string) :
  fetch "/api/thesys" (Chat.request_init trimmed) = Ok res ->
  Chat.ok res = false ->
  Chat.res_text res = Ok errText ->
  Chat.try_block trimmed fetch
  = ([Chat.Fetch "/api/thesys" (Chat.request_init trimmed)],
     Throw (Error (if String.eqb errText "" then "Upstream error" else errText))).
Proof.
  intros Hf Hok Ht. unfold Chat.try_block, then_, Chat.request. cbn [fst snd].
  rewrite Hf, Hok. cbn [negb lift fst snd]. now rewrite Ht.
Qed.

Lemma try_block_chosen (trimmed : string) (fetch : Chat.transport)
    (res : Chat.relay_response) (json chosen : value) :
  fetch "/api/thesys" (Chat.request_init trimmed) = Ok res ->
  Chat.ok res = true ->
  Chat.res_json res = Ok json ->
  Chat.assistantText json = Ok chosen ->
  Chat.try_block trimmed fetch
  = ([Chat.Fetch "/api/thesys" (Chat.request_init trimmed);
      Chat.appending Chat.assistant (to_string chosen)], Ok tt).
Proof.
  intros Hf Hok Hj Hc. unfold Chat.try_block, then_, Chat.request. cbn [fst snd].
  rewrite Hf, Hok. cbn [negb lift fst snd]. rewrite Hj. cbn [fst snd].
  now rewrite Hc.
Qed.

(** The request is the one thing in the [try] block and its [catch]
    clause that calls [fetch]. *)
Lemma one_request_in_try (trimmed : string) (fetch : Chat.transport) :
  exists more,
    fst (catch (Chat.try_block trimmed fetch) Chat.catch_block)
    = Chat.Fetch "/api/thesys" (Chat.request_init trimmed) :: more /\
    Observed.requests more = [].
Proof.
  unfold catch, Chat.try_block, then_, Chat.request. cbn [fst snd].
  destruct (fetch "/api/thesys" (Chat.request_init trimmed)) as [res|e];
    cbn [fst snd app]; [|eexists; split; reflexivity].
  destruct (negb (Chat.ok res)).
  - destruct (Chat.res_text res); cbn; eexists; split; reflexivity.
  - destruct (Chat.res_json res) as [json|e]; cbn;
      [|eexists; split; reflexivity].
    destruct (Chat.assistantText json) as [chosen|e]; cbn;
      [|eexists; split; reflexivity].
    destruct (to_string chosen); cbn; eexists; split; reflexivity.
Qed.

(** X9.  On an input that is not blank, [send] makes its first three
    setter calls and then issues its request, a POST to [/api/thesys]
    whose body is the serialization of [{prompt: trimmed}]; whatever the
    local endpoint does with it and whatever payload comes back, nothing
    that follows in the run issues a second request. *)
Theorem send_issues_one_request :
  forall (typed : string) (fetch : Chat.transport),
    all_whitespace typed = false ->
    exists after : list Chat.effect,
      Chat.send typed fetch
      = ([Chat.SetMessages {| Chat.msg_role := Chat.user; Chat.msg_text := trim typed |};
          Chat.SetInput EmptyString;
          Chat.SetLoading true;
          Chat.Fetch "/api/thesys"
            {| init_method := "POST";
               init_headers := [("Content-Type", "application/json")];
               init_body := stringify (Obj [("prompt", Str (trim typed))]) |}]
         ++ after)%list /\
      Observed.requests after = [].
Proof.
  intros typed fetch Htext. rewrite (send_runs typed fetch Htext).
  destruct (one_request_in_try (trim typed) fetch) as [more [Hmore Hnone]].
  rewrite Hmore. exists (more ++ [Chat.SetLoading false])%list. split.
  - reflexivity.
  - clear Hmore. induction more as [|e more IH]; [reflexivity|].
    destruct e; cbn in Hnone |- *; try discriminate Hnone; now apply IH.
Qed.

Lemma send_issues_one_request_witness :
  exists after : list Chat.effect,
    Chat.send " hi " Scenario.relay_down
    = ([Chat.SetMessages {| Chat.msg_role := Chat.user; Chat.msg_text := trim " hi " |};
        Chat.SetInput EmptyString;
        Chat.SetLoading true;
        Chat.Fetch "/api/thesys"
          {| init_method := "POST";
             init_headers := [("Content-Type", "application/json")];
             init_body := stringify (Obj [("prompt", Str (trim " hi "))]) |}]
       ++ after)%list /\
    Observed.requests after = [].
Proof.
  exact (send_issues_one_request " hi " Scenario.relay_down eq_refl).
Defined.

(** X10.  The user message [send] appends holds the input without the
    white space around it: the input is that text between two runs of
    white space, and the text is not empty and neither begins nor ends
    with white space. *)
Theorem user_message_is_the_trimmed_input :
  forall (typed : string) (fetch : Chat.transport),
    all_whitespace typed = false ->
    exists (shown before after : string) (rest : list Chat.effect),
      Chat.send typed fetch
      = Chat.SetMessages {| Chat.msg_role := Chat.user; Chat.msg_text := shown |}
        :: rest /\
      typed = before ++ shown ++ after /\
      all_whitespace before = true /\
      all_whitespace after = true /\
      shown <> EmptyString /\
      Observed.tidy_start shown = true /\
      Observed.tidy_end shown = true.
Proof.
  intros typed fetch Htext.
  destruct (trimStart_split typed) as [before [Hb Hbw]].
  destruct (trimEnd_split (trimStart typed)) as [after [Ha Haw]].
  exists (trim typed), before, after. eexists.
  split; [rewrite (send_runs typed fetch Htext); reflexivity|].
  split; [unfold trim; now rewrite <- Ha|].
  repeat split; try assumption.
  - intros He. apply trim_empty in He. congruence.
  - apply trimEnd_keeps_start, trimStart_tidy.
  - apply trimEnd_tidy.
Qed.

Lemma user_message_is_the_trimmed_input_witness :
  exists (shown before after : string) (rest : list Chat.effect),
    Chat.send "  what is  up " Scenario.relay_down
    = Chat.SetMessages {| Chat.msg_role := Chat.user; Chat.msg_text := shown |}
      :: rest /\
    "  what is  up " = before ++ shown ++ after /\
    all_whitespace before = true /\
    all_whitespace after = true /\
    shown <> EmptyString /\
    Observed.tidy_start shown = true /\
    Observed.tidy_end shown = true.
Proof.
  exact (user_message_is_the_trimmed_input "  what is  up " Scenario.relay_down eq_refl).
Defined.

(** *** What the assistant message says *)

(** X11.  An answer of the local endpoint that is not [ok] (any status
    outside 200..299, so each error of the relay) is shown as the word
    [Error:] followed by the body of the answer as text, or by
    [Upstream error] when the body is empty; the body is never parsed, and
    the error is written to [console.error]. *)
Theorem refusal_is_shown_with_its_body :
  forall (typed : string) (fetch : Chat.transport) (res : Chat.relay_response)
         (errText : string),
    all_whitespace typed = false ->
    fetch "/api/thesys" (Chat.request_init (trim typed)) = Ok res ->
    Chat.ok res = false ->
    Chat.res_text res = Ok errText ->
    let shown := if String.eqb errText "" then "Upstream error" else errText in
    Chat.send typed fetch
    = [Chat.SetMessages {| Chat.msg_role := Chat.user; Chat.msg_text := trim typed |};
       Chat.SetInput EmptyString;
       Chat.SetLoading true;
       Chat.Fetch "/api/thesys" (Chat.request_init (trim typed));
       Chat.ConsoleError "Error calling /api/thesys" (Error shown);
       Chat.SetMessages {| Chat.msg_role := Chat.assistant;
                           Chat.msg_text := "Error: " ++ shown |};
       Chat.SetLoading false].
Proof.
  intros typed fetch res errText Htext Hf Hok Ht shown. subst shown.
  rewrite (send_runs typed fetch Htext).
  rewrite (try_block_refused _ _ _ _ Hf Hok Ht). reflexivity.
Qed.

Lemma refusal_is_shown_with_its_body_witness :
  let answer body :=
    {| Chat.ok := false;
       Chat.res_text := Ok body;
       Chat.res_json := Ok (Obj [("output", Str "never read")]) |} in
  let shown body :=
    Chat.messages
      (Chat.run (Scenario.idle "hi") (Chat.send "hi" (fun _ _ => Ok (answer body)))) in
  shown "quota exceeded"
  = [ {| Chat.msg_role := Chat.user; Chat.msg_text := "hi" |};
      {| Chat.msg_role := Chat.assistant; Chat.msg_text := "Error: quota exceeded" |} ] /\
  shown EmptyString
  = [ {| Chat.msg_role := Chat.user; Chat.msg_text := "hi" |};
      {| Chat.msg_role := Chat.assistant; Chat.msg_text := "Error: Upstream error" |} ].
Proof.
  cbv zeta. split.
  - rewrite (refusal_is_shown_with_its_body "hi"
               (fun _ _ => Ok {| Chat.ok := false;
                                 Chat.res_text := Ok "quota exceeded";
                                 Chat.res_json := Ok (Obj [("output", Str "never read")]) |})
               {| Chat.ok := false;
                  Chat.res_text := Ok "quota exceeded";
                  Chat.res_json := Ok (Obj [("output", Str "never read")]) |}
               "quota exceeded" eq_refl eq_refl eq_refl eq_refl).
    reflexivity.
  - rewrite (refusal_is_shown_with_its_body "hi"
               (fun _ _ => Ok {| Chat.ok := false;
                                 Chat.res_text := Ok EmptyString;
                                 Chat.res_json := Ok (Obj [("output", Str "never read")]) |})
               {| Chat.ok := false;
                  Chat.res_text := Ok EmptyString;
                  Chat.res_json := Ok (Obj [("output", Str "never read")]) |}
               EmptyString eq_refl eq_refl eq_refl eq_refl).
    reflexivity.
Defined.

(** X12.  Whatever an operation of the [try] block of [send] throws (the
    call of [fetch], the read of the body, or a read of the extraction,
    as [json.output] on a [null] payload) is caught: it is written once to
    [console.error] and shown as [Error:] followed by its message, and the
    [finally] clause puts the loading flag off.  [String(assistantText)]
    is not among these operations: it is evaluated in the updater given to
    [setMessages], after the block. *)
Theorem thrown_error_is_shown_with_its_message :
  forall (typed : string) (fetch : Chat.transport) (e : exn),
    all_whitespace typed = false ->
    Observed.try_block_fails (trim typed) fetch e ->
    Chat.send typed fetch
    = [Chat.SetMessages {| Chat.msg_role := Chat.user; Chat.msg_text := trim typed |};
       Chat.SetInput EmptyString;
       Chat.SetLoading true;
       Chat.Fetch "/api/thesys" (Chat.request_init (trim typed));
       Chat.ConsoleError "Error calling /api/thesys" e;
       Chat.SetMessages {| Chat.msg_role := Chat.assistant;
                           Chat.msg_text := "Error: " ++ message e |};
       Chat.SetLoading false].
Proof.
  intros typed fetch e Htext Hfail.
  rewrite (send_runs typed fetch Htext).
  now rewrite (try_block_thrown _ _ _ Hfail).
Qed.

Lemma thrown_error_is_shown_with_its_message_witness :
  (Observed.errors (Chat.send "hi" Scenario.relay_down)
   = [TypeError "Failed to fetch"] /\
   Chat.messages (Chat.run (Scenario.idle "hi") (Chat.send "hi" Scenario.relay_down))
   = [ {| Chat.msg_role := Chat.user; Chat.msg_text := "hi" |};
       {| Chat.msg_role := Chat.assistant; Chat.msg_text := "Error: Failed to fetch" |} ]) /\
  Observed.errors (Chat.send "hi" (Scenario.relay_answering Null))
  = [TypeError "Cannot read properties of null (reading 'output')"].
Proof.
  split.
  - rewrite (thrown_error_is_shown_with_its_message "hi" Scenario.relay_down
               (TypeError "Failed to fetch") eq_refl (or_introl eq_refl)).
    split; reflexivity.
  - rewrite (thrown_error_is_shown_with_its_message "hi"
               (Scenario.relay_answering Null)
               (TypeError "Cannot read properties of null (reading 'output')")
               eq_refl).
    + reflexivity.
    + right. eexists. split; [reflexivity|].
      right; right. split; [reflexivity|].
      exists Null. split; reflexivity.
Defined.

(** X13.  An [ok] answer whose JSON document is an object with a
    non-empty string in [output] is shown as that string, exactly, with
    nothing written to [console.error], whatever else the document
    holds. *)
Theorem output_string_is_shown_as_reply :
  forall (typed : string) (fetch : Chat.transport) (res : Chat.relay_response)
         (props : list (string * value)) (reply : string),
    all_whitespace typed = false ->
    fetch "/api/thesys" (Chat.request_init (trim typed)) = Ok res ->
    Chat.ok res = true ->
    Chat.res_json res = Ok (Obj props) ->
    own props "output" = Some (Str reply) ->
    reply <> EmptyString ->
    Chat.send typed fetch
    = [Chat.SetMessages {| Chat.msg_role := Chat.user; Chat.msg_text := trim typed |};
       Chat.SetInput EmptyString;
       Chat.SetLoading true;
       Chat.Fetch "/api/thesys" (Chat.request_init (trim typed));
       Chat.SetMessages {| Chat.msg_role := Chat.assistant; Chat.msg_text := reply |};
       Chat.SetLoading false].
Proof.
  intros typed fetch res props reply Htext Hf Hok Hj Hout Hne.
  assert (Hchosen : Chat.assistantText (Obj props) = Ok (Str reply)).
  { rewrite assistantText_resolves by reflexivity.
    unfold Chat.extraction_order, Chat.candidates.
    cbn [Chat.first_resolved Chat.field key]. rewrite Hout.
    cbn [to_boolean]. apply String.eqb_neq in Hne. now rewrite Hne. }
  rewrite (send_runs typed fetch Htext).
  rewrite (try_block_chosen _ _ _ _ _ Hf Hok Hj Hchosen). reflexivity.
Qed.

Lemma output_string_is_shown_as_reply_witness :
  Chat.send " hi "
    (Scenario.relay_answering
       (Obj [("id", Num "42"); ("output", Str "hello there"); ("choices", Null)]))
  = [Chat.SetMessages {| Chat.msg_role := Chat.user; Chat.msg_text := "hi" |};
     Chat.SetInput EmptyString;
     Chat.SetLoading true;
     Chat.Fetch "/api/thesys" (Chat.request_init "hi");
     Chat.SetMessages {| Chat.msg_role := Chat.assistant; Chat.msg_text := "hello there" |};
     Chat.SetLoading false].
Proof.
  apply (output_string_is_shown_as_reply " hi "
           (Scenario.relay_answering
              (Obj [("id", Num "42"); ("output", Str "hello there"); ("choices", Null)]))
           {| Chat.ok := true;
              Chat.res_text :=
                Ok (match stringify
                              (Obj [("id", Num "42"); ("output", Str "hello there");
                                    ("choices", Null)])
                    with Some s => s | None => EmptyString end);
              Chat.res_json :=
                Ok (Obj [("id", Num "42"); ("output", Str "hello there");
                         ("choices", Null)]) |}
           [("id", Num "42"); ("output", Str "hello there"); ("choices", Null)]
           "hello there");
    first [reflexivity | discriminate].
Defined.

(** X21.  When the extraction settles on a candidate that [String] cannot
    convert (an object with an own [toString] member, or an array that
    holds one), the throw happens in the updater given to [setMessages],
    not in the [try] block: [send] does not enter its [catch] clause, so
    nothing is written to [console.error] and no [Error:] message is
    appended; it goes on to the [finally] clause. *)
Theorem string_conversion_throw_is_not_caught :
  forall (typed : string) (fetch : Chat.transport) (res : Chat.relay_response)
         (json chosen : value) (e : exn),
    all_whitespace typed = false ->
    fetch "/api/thesys" (Chat.request_init (trim typed)) = Ok res ->
    Chat.ok res = true ->
    Chat.res_json res = Ok json ->
    Chat.assistantText json = Ok chosen ->
    to_string chosen = Throw e ->
    Chat.send typed fetch
    = [Chat.SetMessages {| Chat.msg_role := Chat.user; Chat.msg_text := trim typed |};
       Chat.SetInput EmptyString;
       Chat.SetLoading true;
       Chat.Fetch "/api/thesys" (Chat.request_init (trim typed));
       Chat.SetMessagesThrows e;
       Chat.SetLoading false] /\
    Observed.errors (Chat.send typed fetch) = [].
Proof.
  intros typed fetch res json chosen e Htext Hf Hok Hj Hchosen Hthrow.
  rewrite (send_runs typed fetch Htext).
  rewrite (try_block_chosen _ _ _ _ _ Hf Hok Hj Hchosen), Hthrow.
  split; reflexivity.
Qed.

Lemma string_conversion_throw_is_not_caught_witness :
  let payload := Obj [("output", Obj [("toString", Num "1")])] in
  Chat.send "hi" (Scenario.relay_answering payload)
  = [Chat.SetMessages {| Chat.msg_role := Chat.user; Chat.msg_text := "hi" |};
     Chat.SetInput EmptyString;
     Chat.SetLoading true;
     Chat.Fetch "/api/thesys" (Chat.request_init "hi");
     Chat.SetMessagesThrows (TypeError "Cannot convert object to primitive value");
     Chat.SetLoading false] /\
  Observed.errors (Chat.send "hi" (Scenario.relay_answering payload)) = [].
Proof.
  cbv zeta.
  apply (string_conversion_throw_is_not_caught "hi"
           (Scenario.relay_answering (Obj [("output", Obj [("toString", Num "1")])]))
           {| Chat.ok := true;
              Chat.res_text :=
                Ok (match stringify (Obj [("output", Obj [("toString", Num "1")])])
                    with Some s => s | None => EmptyString end);
              Chat.res_json := Ok (Obj [("output", Obj [("toString", Num "1")])]) |}
           (Obj [("output", Obj [("toString", Num "1")])])
           (Obj [("toString", Num "1")])
           (TypeError "Cannot convert object to primitive value"));
    reflexivity.
Defined.

(* ===================================================================== *)
(** ** Properties of the manifest script *)
(* ===================================================================== *)

(** *** The segments [toRoutePath] keeps *)

(** A segment is kept when it is not empty and no route group. *)
Lemma kept_segments (parts : list string) :
  Scripts.filterBoolean
    (map (fun p => if Scripts.is_group p then EmptyString else p)
         (Scripts.filterBoolean parts))
  = filter (fun p => negb (String.eqb p "") && negb (Scripts.is_group p)) parts.
Proof.
  unfold Scripts.filterBoolean.
  induction parts as [|p rest IH]; cbn [filter map]; [reflexivity|].
  destruct (String.eqb p "") eqn:Hp; cbn [negb andb filter map]; [exact IH|].
  destruct (Scripts.is_group p); cbn [negb filter String.eqb].
  - exact IH.
  - rewrite Hp. cbn [negb]. now rewrite IH.
Qed.

Lemma toRoutePath_kept (parts : list string) :
  Scripts.toRoutePath parts
  = "/" ++ Scripts.collapse_slashes
             (String.concat "/"
                (filter (fun p => negb (String.eqb p "") && negb (Scripts.is_group p))
                        parts)).
Proof.
  unfold Scripts.toRoutePath. now rewrite kept_segments.
Qed.

Lemma toRoutePath_skips (before after : list string) (g : string) :
  g = EmptyString \/ Scripts.is_group g = true ->
  Scripts.toRoutePath (before ++ g :: after) = Scripts.toRoutePath (before ++ after).
Proof.
  intros Hg. rewrite !toRoutePath_kept, !filter_app. cbn [filter].
  assert (Hdrop : negb (String.eqb g "") && negb (Scripts.is_group g) = false).
  { destruct Hg as [->|Hg]; [reflexivity|]. rewrite Hg. apply andb_false_r. }
  now rewrite Hdrop.
Qed.

(** X14.  An empty segment and a route group (a segment in parentheses)
    leave no trace in the route path, wherever they stand among the
    segments. *)
Theorem route_groups_leave_no_trace :
  forall (before after : list string) (g : string),
    g = EmptyString \/ Scripts.is_group g = true ->
    Scripts.toRoutePath (before ++ g :: after) = Scripts.toRoutePath (before ++ after).
Proof.
  exact toRoutePath_skips.
Qed.

Lemma route_groups_leave_no_trace_witness :
  Scripts.toRoutePath ["api"; "(internal)"; "thesys"] = "/api/thesys" /\
  Scripts.toRoutePath ["api"; "(internal)"; "thesys"]
  = Scripts.toRoutePath ["api"; "thesys"].
Proof.
  split; [reflexivity|].
  exact (route_groups_leave_no_trace ["api"] ["thesys"] "(internal)"
           (or_intror eq_refl)).
Defined.

(** *** Slashes *)

Lemma is_slash_eq (c : ascii) : Scripts.is_slash c = true -> c = "/"%char.
Proof. apply Ascii.eqb_eq. Qed.

Lemma collapse_head (s : string) :
  match s with
  | EmptyString => Scripts.collapse_slashes s = EmptyString
  | String c _ => exists rest, Scripts.collapse_slashes s = String c rest
  end.
Proof.
  induction s as [|c rest IH]; [reflexivity|].
  cbn [Scripts.collapse_slashes].
  destruct (Scripts.is_slash c) eqn:Hc; [|eauto].
  destruct rest as [|c' rest']; [eauto|].
  destruct (Scripts.is_slash c') eqn:Hc'; [|eauto].
  destruct IH as [r Hr]. exists r.
  now rewrite (is_slash_eq c Hc), <- (is_slash_eq c' Hc').
Qed.

Lemma collapse_no_double_slash (s : string) :
  Scripts.no_double_slash (Scripts.collapse_slashes s) = true.
Proof.
  induction s as [|c rest IH]; [reflexivity|].
  cbn [Scripts.collapse_slashes].
  destruct (Scripts.is_slash c) eqn:Hc.
  - destruct rest as [|c' rest']; [reflexivity|].
    destruct (Scripts.is_slash c') eqn:Hc'; [exact IH|].
    destruct (collapse_head (String c' rest')) as [r Hr].
    rewrite Hr in IH |- *.
    change (Scripts.no_double_slash (String c (String c' r)))
      with (negb (Scripts.is_slash c && Scripts.is_slash c')
            && Scripts.no_double_slash (String c' r)).
    now rewrite Hc, Hc', IH.
  - cbn [Scripts.no_double_slash]. rewrite IH, Hc.
    now destruct (Scripts.collapse_slashes rest).
Qed.

(** X15.  Whatever the segments hold, the route path is a slash followed
    by a text in which no two slashes stand side by side. *)
Theorem route_path_has_no_slash_runs :
  forall parts : list string,
    exists tail : string,
      Scripts.toRoutePath parts = String "/" tail /\
      Scripts.no_double_slash tail = true.
Proof.
  intros parts. eexists. split; [reflexivity|].
  apply collapse_no_double_slash.
Qed.

Lemma no_double_slash_after_plain (p s : string) :
  Scripts.no_slash p = true ->
  Scripts.no_double_slash (p ++ s) = Scripts.no_double_slash s.
Proof.
  induction p as [|c p IH]; cbn [append Scripts.no_slash]; [reflexivity|].
  intros H. apply andb_prop in H. destruct H as [Hc Hp].
  apply negb_true_iff in Hc.
  cbn [Scripts.no_double_slash]. rewrite Hc, (IH Hp).
  now destruct (p ++ s).
Qed.

Lemma collapse_fixed (s : string) :
  Scripts.no_double_slash s = true -> Scripts.collapse_slashes s = s.
Proof.
  induction s as [|c rest IH]; [reflexivity|].
  cbn [Scripts.no_double_slash Scripts.collapse_slashes].
  intros H. apply andb_prop in H. destruct H as [Hpair Hrest].
  rewrite (IH Hrest).
  destruct (Scripts.is_slash c); [|reflexivity].
  destruct rest as [|c' rest']; [reflexivity|].
  destruct (Scripts.is_slash c'); [discriminate Hpair | reflexivity].
Qed.

(** The segments of a path joined again: no slash at the front, no two
    slashes side by side. *)
Lemma joined_segments_tidy (segs : list string) :
  forallb (fun p => negb (String.eqb p "") && Scripts.no_slash p) segs = true ->
  Scripts.no_double_slash (String.concat "/" segs) = true /\
  match String.concat "/" segs with
  | EmptyString => True
  | String c _ => Scripts.is_slash c = false
  end.
Proof.
  induction segs as [|p rest IH]; cbn [forallb String.concat]; [auto|].
  intros H. apply andb_prop in H. destruct H as [Hp Hrest].
  apply andb_prop in Hp. destruct Hp as [Hne Hp].
  specialize (IH Hrest). destruct IH as [IHnds IHhead].
  assert (Hhead : forall s, match p ++ s with
                            | EmptyString => True
                            | String c _ => Scripts.is_slash c = false
                            end).
  { intros s. destruct p as [|c p']; [discriminate Hne|].
    cbn in Hp |- *. apply andb_prop in Hp. now apply negb_true_iff. }
  destruct rest as [|q rest'].
  - split.
    + clear - Hp. induction p as [|c p IHp]; [reflexivity|].
      cbn in Hp |- *. apply andb_prop in Hp. destruct Hp as [Hc Hp].
      apply negb_true_iff in Hc. rewrite Hc, (IHp Hp). now destruct p.
    + destruct p as [|c p']; [discriminate Hne|].
      cbn in Hp. apply andb_prop in Hp. now apply negb_true_iff.
  - split; [|apply Hhead].
    rewrite (no_double_slash_after_plain p _ Hp).
    cbn [append Scripts.no_double_slash]. rewrite IHnds.
    destruct (String.concat "/" (q :: rest')); [reflexivity|].
    rewrite IHhead. now rewrite andb_false_r.
Qed.

(** X16.  On segments that hold no slash (the parts of a path split at
    its separator) the route path is a slash followed by the segments that
    are neither empty nor a route group, in their order, joined by
    slashes; it is [/] alone when none is left. *)
Theorem route_path_of_path_segments :
  forall parts : list string,
    forallb Scripts.no_slash parts = true ->
    Scripts.toRoutePath parts
    = "/" ++ String.concat "/"
               (filter (fun p => negb (String.eqb p "") && negb (Scripts.is_group p))
                       parts).
Proof.
  intros parts Hplain. rewrite toRoutePath_kept. f_equal.
  apply collapse_fixed, joined_segments_tidy.
  induction parts as [|p rest IH]; [reflexivity|].
  cbn [forallb] in Hplain. apply andb_prop in Hplain. destruct Hplain as [Hp Hrest].
  cbn [filter].
  destruct (negb (String.eqb p "")) eqn:Hne; cbn [andb]; [|now apply IH].
  destruct (negb (Scripts.is_group p)); [|now apply IH].
  cbn [forallb]. now rewrite Hne, Hp, (IH Hrest).
Qed.

Lemma route_path_of_path_segments_witness :
  Scripts.toRoutePath ["(marketing)"; "blog"; ""; "[slug]"] = "/blog/[slug]" /\
  Scripts.toRoutePath ["(marketing)"] = "/".
Proof.
  split.
  - exact (route_path_of_path_segments ["(marketing)"; "blog"; ""; "[slug]"] eq_refl).
  - exact (route_path_of_path_segments ["(marketing)"] eq_refl).
Defined.

(** *** The entries of [extractRoutes] *)

Lemma last_part_snoc (segments : list string) (name : string) :
  Scripts.last_part (segments ++ [name])%list = Some name.
Proof.
  induction segments as [|p rest IH]; [reflexivity|].
  cbn [app Scripts.last_part]. rewrite IH.
  now destruct (rest ++ [name])%list eqn:H; [destruct rest; discriminate H|].
Qed.

(** X17.  A file adds one entry to the routes when its name is one of
    [page.tsx], [page.jsx], [route.ts], [route.js], [layout.tsx] and
    [layout.jsx], and none otherwise (so no [page.js], [page.ts] or
    [route.mjs]); it never adds two. *)
Theorem one_route_entry_per_known_file :
  forall (rel : list string) (f : string),
    length (Scripts.route_entries rel f)
    = if Scripts.is_one_of (Scripts.last_part rel)
           ["page.tsx"; "page.jsx"; "route.ts"; "route.js"; "layout.tsx"; "layout.jsx"]
      then 1 else 0.
Proof.
  intros rel f. unfold Scripts.route_entries.
  destruct (Scripts.last_part rel) as [name|]; [|reflexivity].
  cbv zeta. cbn [Scripts.is_one_of existsb].
  destruct (String.eqb_spec name "page.tsx") as [->|_]; [reflexivity|].
  destruct (String.eqb_spec name "page.jsx") as [->|_]; [reflexivity|].
  destruct (String.eqb_spec name "route.ts") as [->|_]; [reflexivity|].
  destruct (String.eqb_spec name "route.js") as [->|_]; [reflexivity|].
  destruct (String.eqb_spec name "layout.tsx") as [->|_]; [reflexivity|].
  destruct (String.eqb_spec name "layout.jsx") as [->|_]; reflexivity.
Qed.

(** X18.  A route file is typed [api] by its first segment as it stands
    on disk, before route groups are removed: under a leading route group
    the entry is typed [route], although its path is the [/api/...] path
    of the same file without the group, which is typed [api]. *)
Theorem api_route_under_group_is_typed_route :
  forall (g name f : string) (rest : list string),
    Scripts.is_group g = true ->
    In name ["route.ts"; "route.js"] ->
    Scripts.route_entries (g :: "api" :: rest ++ [name])%list f
    = [ {| Scripts.route_type := "route";
           Scripts.route_path := Scripts.toRoutePath ("api" :: rest);
           Scripts.route_file := f |} ] /\
    Scripts.route_entries ("api" :: rest ++ [name])%list f
    = [ {| Scripts.route_type := "api";
           Scripts.route_path := Scripts.toRoutePath ("api" :: rest);
           Scripts.route_file := f |} ].
Proof.
  intros g name f rest Hg Hname.
  assert (Hnot_api : String.eqb g "api" = false).
  { apply String.eqb_neq. intros ->. discriminate Hg. }
  unfold Scripts.route_entries.
  change (g :: "api" :: rest ++ [name])%list with ((g :: "api" :: rest) ++ [name])%list.
  change ("api" :: rest ++ [name])%list with (("api" :: rest) ++ [name])%list.
  rewrite !last_part_snoc, !removelast_last. cbv zeta.
  pose proof (toRoutePath_skips [] ("api" :: rest) g (or_intror Hg)) as Hskip.
  cbn [app] in Hskip. rewrite Hskip.
  cbn [app hd_error Scripts.is_one_of existsb]. rewrite Hnot_api.
  destruct Hname as [<-|[<-|[]]]; split; reflexivity.
Qed.

Lemma api_route_under_group_is_typed_route_witness :
  Scripts.route_entries ["(v1)"; "api"; "thesys"; "route.ts"] "src/app/(v1)/api/thesys/route.ts"
  = [ {| Scripts.route_type := "route";
         Scripts.route_path := "/api/thesys";
         Scripts.route_file := "src/app/(v1)/api/thesys/route.ts" |} ] /\
  Scripts.route_entries ["api"; "thesys"; "route.ts"] "src/app/(v1)/api/thesys/route.ts"
  = [ {| Scripts.route_type := "api";
         Scripts.route_path := "/api/thesys";
         Scripts.route_file := "src/app/(v1)/api/thesys/route.ts" |} ].
Proof.
  exact (api_route_under_group_is_typed_route "(v1)" "route.ts"
           "src/app/(v1)/api/thesys/route.ts" ["thesys"] eq_refl (or_introl eq_refl)).
Defined.
